(** * Yapp: the input sanitization and validation layer of package [utils]

    A shallow embedding of the sanitizers of [internal/utils] (SanitizeUsername,
    SanitizeHallname, SanitizeDisplayName, SanitizeEmail, SanitizePhoneE164,
    SanitizePasswordPolicy, SanitizeColorFormat, SanitizeText,
    SanitizeMessageContent, ValidateFileName, ValidateFileType) together with
    the parts of the Go standard library they call.

    Data model.  A Go [string] is an immutable sequence of bytes: it is
    modelled as [list ascii] (one [ascii] is exactly one byte, and a Rocq
    string literal denotes its UTF-8 bytes, as a Go literal does).  A [rune]
    is an [int32], modelled as [Z].  A [*string] is an [option]; a Go result
    [(v, err)] is a pair whose second component is [None] for [nil].

    The Go packages are laid out as modules of the same name: [utf8],
    [unicode], [strings], [filepath], [regexp], [os], and the repository's
    package [utils].  Libraries whose tables are far outside the repository
    (Unicode case folding, NFKC normalisation, the bluemonday HTML policy, the
    password entropy estimator, the file system) are Section variables: every
    theorem holds for any behaviour of theirs, unless it states a premise. *)

From Stdlib Require Import ZArith Ascii String Lia Bool.
From stdpp Require Import gmap list strings.

Open Scope Z_scope.

(** Go strings as byte sequences. *)
Abbreviation gostring := (list ascii).
Abbreviation rune := Z (only parsing).

(** A Go string literal. *)
Definition str (s : string) : gostring := list_ascii_of_string s.

(** The numeric value of a byte, [0 .. 255]. *)
Definition byteZ (c : ascii) : Z := Z.of_N (N_of_ascii c).

(** [byte(x)] for an [x] already known to fit. *)
Definition byte_of (x : Z) : ascii := ascii_of_N (Z.to_N (x mod 256)).

(** * Package [unicode/utf8] *)
Module utf8.

Definition RuneError : rune := 0xFFFD.
Definition RuneSelf : Z := 0x80.
Definition MaxRune : rune := 0x10FFFF.
Definition UTFMax : nat := 4.

Definition surrogateMin : Z := 0xD800.
Definition surrogateMax : Z := 0xDFFF.

Definition maskx : Z := 0x3F.
Definition mask2 : Z := 0x1F.
Definition mask3 : Z := 0x0F.
Definition mask4 : Z := 0x07.

Definition tx : Z := 0x80.
Definition t2 : Z := 0xC0.
Definition t3 : Z := 0xE0.
Definition t4 : Z := 0xF0.

Definition rune1Max : Z := 0x7F.
Definition rune2Max : Z := 0x7FF.
Definition rune3Max : Z := 0xFFFF.

(** The default lowest and highest continuation byte. *)
Definition locb : Z := 0x80.
Definition hicb : Z := 0xBF.

(** An entry of the table [first]: [AS] for an ASCII byte, [XX] for a byte that
    cannot start a sequence, and [LEAD sz lo hi] for the first byte of a
    sequence of [sz] bytes whose second byte must lie in [lo .. hi] (the
    [acceptRanges] entry the Go table points to). *)
Inductive firstInfo : Type :=
  | AS
  | XX
  | LEAD (sz : nat) (lo hi : Z).

Definition first (b : Z) : firstInfo :=
  if b <? 0x80 then AS
  else if b <? 0xC2 then XX
  else if b <? 0xE0 then LEAD 2 locb hicb
  else if b =? 0xE0 then LEAD 3 0xA0 hicb
  else if b <? 0xED then LEAD 3 locb hicb
  else if b =? 0xED then LEAD 3 locb 0x9F
  else if b <? 0xF0 then LEAD 3 locb hicb
  else if b =? 0xF0 then LEAD 4 0x90 hicb
  else if b <? 0xF4 then LEAD 4 locb hicb
  else if b =? 0xF4 then LEAD 4 locb 0x8F
  else XX.

(** [s[i]] as a number ([0] out of range; every use is guarded by a length
    test, as in the Go code). *)
Definition at_ (s : gostring) (i : nat) : Z := byteZ (nth i s zero).

(** [utf8.DecodeRuneInString]: the first rune of [s] and its width in bytes.
    An invalid or truncated encoding yields [(RuneError, 1)], the empty
    string [(RuneError, 0)]. *)
Definition DecodeRuneInString (s : gostring) : rune * nat :=
  let n := length s in
  if (n <? 1)%nat then (RuneError, 0%nat)
  else
    let s0 := at_ s 0 in
    match first s0 with
    | AS => (s0, 1%nat)
    | XX => (RuneError, 1%nat)
    | LEAD sz lo hi =>
      if (n <? sz)%nat then (RuneError, 1%nat)
      else
        let s1 := at_ s 1 in
        if (s1 <? lo) || (hi <? s1) then (RuneError, 1%nat)
        else if (sz <=? 2)%nat then
          (Z.lor (Z.shiftl (Z.land s0 mask2) 6) (Z.land s1 maskx), 2%nat)
        else
          let s2 := at_ s 2 in
          if (s2 <? locb) || (hicb <? s2) then (RuneError, 1%nat)
          else if (sz <=? 3)%nat then
            (Z.lor (Z.lor (Z.shiftl (Z.land s0 mask3) 12)
                          (Z.shiftl (Z.land s1 maskx) 6))
                   (Z.land s2 maskx), 3%nat)
          else
            let s3 := at_ s 3 in
            if (s3 <? locb) || (hicb <? s3) then (RuneError, 1%nat)
            else
              (Z.lor (Z.lor (Z.lor (Z.shiftl (Z.land s0 mask4) 18)
                                   (Z.shiftl (Z.land s1 maskx) 12))
                            (Z.shiftl (Z.land s2 maskx) 6))
                     (Z.land s3 maskx), 4%nat)
    end.

(** The iteration [for i, r := range s]: every rune of [s] in order, paired
    with the bytes it was decoded from.  The fuel bounds the number of
    iterations; [length s] is always enough ([runes_from_enough]). *)
Fixpoint runes_from (fuel : nat) (s : gostring) : list (rune * gostring) :=
  match fuel with
  | O => []
  | S fuel' =>
    match s with
    | [] => []
    | _ :: _ =>
      let '(r, n) := DecodeRuneInString s in
      (r, take n s) :: runes_from fuel' (drop n s)
    end
  end.

Definition runes (s : gostring) : list (rune * gostring) :=
  runes_from (length s) s.

(** The bytes a list of decoded runes came from. *)
Definition bytes_of (rs : list (rune * gostring)) : gostring :=
  concat (map snd rs).

(** [utf8.RuneCountInString]: invalid bytes count as one rune of width 1. *)
Definition RuneCountInString (s : gostring) : nat := length (runes s).

(** [utf8.AppendRune] on an empty buffer: the UTF-8 encoding of [r]. *)
Definition EncodeRune (r : rune) : gostring :=
  if (0 <=? r) && (r <=? rune1Max) then [byte_of r]
  else if (0 <=? r) && (r <=? rune2Max) then
    [byte_of (Z.lor t2 (Z.shiftr r 6)); byte_of (Z.lor tx (Z.land r maskx))]
  else
    let r' := if (r <? 0) || (MaxRune <? r)
                 || ((surrogateMin <=? r) && (r <=? surrogateMax))
              then Some RuneError
              else if r <=? rune3Max then Some r else None in
    match r' with
    | Some r =>
      [byte_of (Z.lor t3 (Z.shiftr r 12));
       byte_of (Z.lor tx (Z.land (Z.shiftr r 6) maskx));
       byte_of (Z.lor tx (Z.land r maskx))]
    | None =>
      [byte_of (Z.lor t4 (Z.shiftr r 18));
       byte_of (Z.lor tx (Z.land (Z.shiftr r 12) maskx));
       byte_of (Z.lor tx (Z.land (Z.shiftr r 6) maskx));
       byte_of (Z.lor tx (Z.land r maskx))]
    end.

End utf8.

(** * Package [unicode] *)
Module unicode.

Definition MaxLatin1 : rune := 0xFF.

(** [unicode.IsSpace]: the Latin-1 switch, then the [White_Space] range
    table. *)
Definition IsSpace (r : rune) : bool :=
  if (0 <=? r) && (r <=? MaxLatin1) then
    (r =? 0x09) || (r =? 0x0A) || (r =? 0x0B) || (r =? 0x0C) || (r =? 0x0D)
    || (r =? 0x20) || (r =? 0x85) || (r =? 0xA0)
  else
    (r =? 0x1680) || ((0x2000 <=? r) && (r <=? 0x200A))
    || (r =? 0x2028) || (r =? 0x2029) || (r =? 0x202F) || (r =? 0x205F)
    || (r =? 0x3000).

End unicode.

(** A rune literal such as ['+']. *)
Definition rune_lit (c : ascii) : rune := byteZ c.

(** * Package [strings] *)
Module strings.

(** One decoded rune is white space. *)
Definition space_rune (x : rune * gostring) : bool := unicode.IsSpace x.1.

Fixpoint drop_while {A} (f : A -> bool) (l : list A) : list A :=
  match l with
  | [] => []
  | x :: l' => if f x then drop_while f l' else l
  end.

(** [strings.TrimLeftFunc] and [strings.TrimRightFunc] on decoded runes. *)
Definition trim_left (f : rune * gostring -> bool) (rs : list (rune * gostring)) :=
  drop_while f rs.

Definition trim_right (f : rune * gostring -> bool) (rs : list (rune * gostring)) :=
  reverse (drop_while f (reverse rs)).

(** [strings.TrimSpace]: [s] without its leading and trailing white space, as
    defined by Unicode.  (The ASCII fast path of the Go code and its fall back
    to [TrimFunc (s, unicode.IsSpace)] compute this slice of [s].) *)
Definition TrimSpace (s : gostring) : gostring :=
  utf8.bytes_of (trim_right space_rune (trim_left space_rune (utf8.runes s))).

(** [strings.FieldsFunc (s, unicode.IsSpace)]: [cur] is the span being
    read ([start >= 0] in the Go code), [None] between fields. *)
Fixpoint fields_from (rs : list (rune * gostring)) (cur : option gostring)
  : list gostring :=
  match rs with
  | [] => match cur with Some f => [f] | None => [] end
  | x :: rest =>
    if space_rune x then
      match cur with
      | Some f => f :: fields_from rest None
      | None => fields_from rest None
      end
    else
      fields_from rest (Some (match cur with Some f => f ++ x.2 | None => x.2 end))
  end.

(** [strings.Fields]: the maximal runs of non white space runes of [s]. *)
Definition Fields (s : gostring) : list gostring :=
  fields_from (utf8.runes s) None.

(** [strings.Join]. *)
Fixpoint Join (elems : list gostring) (sep : gostring) : gostring :=
  match elems with
  | [] => []
  | [e] => e
  | e :: rest => e ++ sep ++ Join rest sep
  end.

Fixpoint HasPrefix (s prefix : gostring) : bool :=
  match prefix with
  | [] => true
  | p :: prefix' =>
    match s with
    | [] => false
    | c :: s' => Ascii.eqb c p && HasPrefix s' prefix'
    end
  end.

(** [strings.Contains]: [substr] occurs in [s] at some byte offset. *)
Fixpoint Contains (s substr : gostring) : bool :=
  HasPrefix s substr
  || match s with
     | [] => false
     | _ :: s' => Contains s' substr
     end.

(** [WriteRune] of a [strings.Builder], the builder passed explicitly. *)
Definition WriteRune (b : gostring) (r : rune) : gostring :=
  b ++ utf8.EncodeRune r.

(** [strings.Map]: every rune replaced by its image, dropped when the image is
    negative; an invalid byte is read as [RuneError]. *)
Definition Map (mapping : rune -> rune) (s : gostring) : gostring :=
  fold_left (fun b x => let r := mapping x.1 in
                        if 0 <=? r then WriteRune b r else b)
            (utf8.runes s) [].

Definition is_upper_ascii (c : ascii) : bool :=
  (byteZ "A" <=? byteZ c) && (byteZ c <=? byteZ "Z").

(** [c += 'a' - 'A'] on an upper case letter. *)
Definition lower_byte (c : ascii) : ascii :=
  if is_upper_ascii c then byte_of (byteZ c + (byteZ "a" - byteZ "A")) else c.

Section Case.
(** [unicode.ToLower], the case table of the Unicode database. *)
Variable unicode_ToLower : rune -> rune.

(** [strings.ToLower]: the ASCII loop, or [Map (unicode.ToLower, s)] when
    [s] has a byte that is not ASCII. *)
Definition ToLower (s : gostring) : gostring :=
  let isASCII := forallb (fun c => byteZ c <? utf8.RuneSelf) s in
  let hasUpper := existsb is_upper_ascii s in
  if isASCII then
    if negb hasUpper then s else map lower_byte s
  else Map unicode_ToLower s.
End Case.

End strings.

(** * Package [path/filepath] (Unix) *)
Module filepath.

Definition IsPathSeparator (c : ascii) : bool := Ascii.eqb c "/".

(** The loop of [filepath.Ext], from the last byte backwards: [rpath] is
    [path[:i+1]] reversed and [acc] is [path[i+1:]]. *)
Fixpoint ext_scan (rpath acc : gostring) : gostring :=
  match rpath with
  | [] => []
  | c :: rest =>
    if IsPathSeparator c then []
    else if Ascii.eqb c "." then c :: acc
    else ext_scan rest (c :: acc)
  end.

(** [filepath.Ext]: the suffix beginning at the final dot of the final
    element of [path], empty if there is no dot. *)
Definition Ext (path : gostring) : gostring := ext_scan (reverse path) [].

End filepath.

(** * Package [regexp] *)
Module regexp.

(** The operators of [regexp/syntax] that the patterns of the package use. *)
Inductive Regexp : Type :=
  | OpBeginText
  | OpEndText
  | OpLiteral (r : rune)
  | OpCharClass (ranges : list (rune * rune))
  | OpConcat (a b : Regexp)
  | OpRepeat (min max : nat) (sub : Regexp)
  | OpStar (sub : Regexp)
  | OpPlus (sub : Regexp)
  | OpQuest (sub : Regexp).

Definition in_class (ranges : list (rune * rune)) (r : rune) : bool :=
  existsb (fun lh => (lh.1 <=? r) && (r <=? lh.2)) ranges.

(** A position in the text: whether it is the beginning of the text, and the
    runes still to read. *)
Definition config : Type := bool * list rune.

Fixpoint iter_match (step : config -> list config) (k : nat) (c : config)
  : list config :=
  match k with
  | O => [c]
  | S k' => concat (map (iter_match step k') (step c))
  end.

(** Every position at which a match of [re] that starts at [c] can end.  An
    iteration of a starred pattern that reads nothing leaves the position as
    it is, so as many iterations as there are runes left, and one more, reach
    every position the star can reach. *)
Fixpoint run (re : Regexp) (c : config) : list config :=
  match re with
  | OpBeginText => if c.1 then [c] else []
  | OpEndText => match c.2 with [] => [c] | _ :: _ => [] end
  | OpLiteral x =>
    match c.2 with
    | r :: rest => if r =? x then [(false, rest)] else []
    | [] => []
    end
  | OpCharClass ranges =>
    match c.2 with
    | r :: rest => if in_class ranges r then [(false, rest)] else []
    | [] => []
    end
  | OpConcat a b => concat (map (run b) (run a c))
  | OpRepeat lo hi sub =>
    concat (map (fun k => iter_match (run sub) k c) (seq lo (hi + 1 - lo)))
  | OpStar sub =>
    concat (map (fun k => iter_match (run sub) k c) (seq 0 (S (length c.2))))
  | OpPlus sub =>
    concat (map (fun k => iter_match (run sub) k c) (seq 1 (S (length c.2))))
  | OpQuest sub => c :: run sub c
  end.

Definition matches_at (re : Regexp) (c : config) : bool :=
  match run re c with [] => false | _ :: _ => true end.

(** A match may start at any position of the text. *)
Fixpoint search (re : Regexp) (at_begin : bool) (text : list rune) : bool :=
  matches_at re (at_begin, text)
  || match text with
     | [] => false
     | _ :: rest => search re false rest
     end.

(** [MatchString] of a compiled [Regexp]: [s] contains a match of [re].  The text is read
    rune by rune, an invalid byte as [RuneError]. *)
Definition MatchString (re : Regexp) (s : gostring) : bool :=
  search re true (map fst (utf8.runes s)).

Definition range (lo hi : ascii) : rune * rune := (rune_lit lo, rune_lit hi).
Definition single (c : ascii) : rune * rune := (rune_lit c, rune_lit c).

End regexp.

(** * Package [os] *)
Module os.

(** The [syscall.Errno] values [os.Stat] fails with. *)
Inductive Errno : Type :=
  | ENOENT | EACCES | ENOTDIR | ENAMETOOLONG | ELOOP | EIO.

(** An [error]: [None] is [nil]. *)
Definition error : Type := option Errno.

(** [os.IsNotExist]: [nil] is no such error, [ENOENT] is. *)
Definition IsNotExist (err : error) : bool :=
  match err with
  | Some ENOENT => true
  | _ => false
  end.

End os.

(** * Package [utils]: the sanitizers *)
Module utils.

(** Modelled from the spec: the error values of the package ([ErrorInvalidUsername]
    and the like) are declared in a file of package [utils] other than the
    sanitizers; the spec lists them as a closed enumeration of rejection
    reasons, one per validator.  [ErrorInvalidInput] is the one the HTTP
    handlers report for a body that does not bind. *)
Inductive Error : Type :=
  | ErrorInvalidInput
  | ErrorInvalidUsername
  | ErrorInvalidHallName
  | ErrorInvalidDisplayName
  | ErrorInvalidEmail
  | ErrorInvalidPhoneNumber
  | ErrorPasswordWhiteSpace
  | ErrorInvalidPassword
  | ErrorInvalidBannerColor
  | ErrorInvalidFileName
  | ErrorBadFileType
  | ErrorFileUnmatch.

(** The outcome of a call that may panic. *)
Inductive outcome (A : Type) : Type :=
  | Returns (a : A)
  | Panics.
Arguments Returns {A} a.
Arguments Panics {A}.

(** [*p]: dereferencing [nil] panics. *)
Definition deref {A : Type} (p : option A) : outcome A :=
  match p with
  | Some v => Returns v
  | None => Panics
  end.

Definition bind {A B : Type} (m : outcome A) (k : A -> outcome B) : outcome B :=
  match m with
  | Returns a => k a
  | Panics => Panics
  end.

Definition FileSize : Z := 10.

(** [^[a-z0-9_.-]{3,32}$] *)
Definition usernameRegex : regexp.Regexp :=
  regexp.OpConcat regexp.OpBeginText
    (regexp.OpConcat
       (regexp.OpRepeat 3 32
          (regexp.OpCharClass
             [regexp.range "a" "z"; regexp.range "0" "9"; regexp.single "_";
              regexp.single "."; regexp.single "-"]))
       regexp.OpEndText).

(** [^[a-zA-Z0-9_.\- ]{3,32}$] *)
Definition hallNameRegex : regexp.Regexp :=
  regexp.OpConcat regexp.OpBeginText
    (regexp.OpConcat
       (regexp.OpRepeat 3 32
          (regexp.OpCharClass
             [regexp.range "a" "z"; regexp.range "A" "Z"; regexp.range "0" "9";
              regexp.single "_"; regexp.single "."; regexp.single "-";
              regexp.single " "]))
       regexp.OpEndText).

(** The classes [[a-zA-Z0-9]] and [[a-zA-Z0-9-]] of [emailRegex], and a label
    [[a-zA-Z0-9](?:[a-zA-Z0-9-]{0,61}[a-zA-Z0-9])?] of a domain. *)
Definition alnum : list (rune * rune) :=
  [regexp.range "a" "z"; regexp.range "A" "Z"; regexp.range "0" "9"].

Definition emailLabel : regexp.Regexp :=
  regexp.OpConcat (regexp.OpCharClass alnum)
    (regexp.OpQuest
       (regexp.OpConcat
          (regexp.OpRepeat 0 61 (regexp.OpCharClass (alnum ++ [regexp.single "-"])))
          (regexp.OpCharClass alnum))).

(** [^[a-zA-Z0-9.!#$%&'*+/=?^_`{|}~-]+@label(?:\.label)*$] *)
Definition emailRegex : regexp.Regexp :=
  regexp.OpConcat regexp.OpBeginText
    (regexp.OpConcat
       (regexp.OpPlus
          (regexp.OpCharClass
             (alnum ++
              map regexp.single
                ["."; "!"; "#"; "$"; "%"; "&"; "'"; "*"; "+"; "/"; "="; "?";
                 "^"; "_"; "`"; "{"; "|"; "}"; "~"; "-"]%char)))
       (regexp.OpConcat (regexp.OpLiteral (rune_lit "@"))
          (regexp.OpConcat emailLabel
             (regexp.OpConcat
                (regexp.OpStar
                   (regexp.OpConcat (regexp.OpLiteral (rune_lit ".")) emailLabel))
                regexp.OpEndText)))).

(** [^#(?:[0-9a-fA-F]{3}){1,2}$] *)
Definition hexRegex : regexp.Regexp :=
  regexp.OpConcat regexp.OpBeginText
    (regexp.OpConcat (regexp.OpLiteral (rune_lit "#"))
       (regexp.OpConcat
          (regexp.OpRepeat 1 2
             (regexp.OpRepeat 3 3
                (regexp.OpCharClass
                   [regexp.range "0" "9"; regexp.range "a" "f";
                    regexp.range "A" "F"])))
          regexp.OpEndText)).

(** The key set of the map [blockedExt]. *)
Definition blockedExt : gset gostring :=
  list_to_set
    (map str
       [".exe"; ".bat"; ".cmd"; ".msix";
        ".scr"; ".pif"; ".dll"; ".jse"; ".vbs";
        ".vbe"; ".wsf"; ".wsh"; ".ps1"; ".psm1"; ".reg";
        ".jar"; ".dmg"; ".iso"; ".pkg"; ".sh";
        ".virus"]%string).

Definition minEntropyBits : Z := 60.

Definition keepPlusDigits (s : gostring) : gostring :=
  fold_left
    (fun b x =>
       let r := x.1 in
       if (r =? rune_lit "+") || ((rune_lit "0" <=? r) && (r <=? rune_lit "9"))
       then strings.WriteRune b r
       else b)
    (utf8.runes s) [].

Section Sanitizers.
(** [unicode.ToLower]. *)
Variable unicode_ToLower : rune -> rune.
(** [norm.NFKC.String] of golang.org/x/text. *)
Variable NFKC : gostring -> gostring.
(** [Sanitize] of [bluemonday.UGCPolicy ()]. *)
Variable UGCPolicy_Sanitize : gostring -> gostring.
(** [passwordvalidator.Validate (password, minEntropy)]: [None] is [nil]. *)
Variable passwordvalidator_Validate : gostring -> Z -> option gostring.
(** The error result of [os.Stat] on the file system of the call. *)
Variable os_Stat : gostring -> os.error.

Definition SanitizeUsername (s : gostring) : gostring * option Error :=
  let s := strings.TrimSpace s in
  let s := strings.ToLower unicode_ToLower s in
  if negb (regexp.MatchString usernameRegex s) then
    ([], Some ErrorInvalidUsername)
  else (s, None).

Definition SanitizeHallname (s : gostring) : gostring * option Error :=
  let s := strings.TrimSpace s in
  if negb (regexp.MatchString hallNameRegex s) then
    ([], Some ErrorInvalidHallName)
  else (s, None).

Definition SanitizeDisplayName (s : gostring) : gostring * option Error :=
  let s := strings.TrimSpace s in
  let s := NFKC s in
  let s := strings.Join (strings.Fields s) (str " ") in
  if bool_decide (s = []) then ([], Some ErrorInvalidDisplayName)
  else
    let length := utf8.RuneCountInString s in
    if (length <? 3)%nat || (32 <? length)%nat then
      ([], Some ErrorInvalidDisplayName)
    else (s, None).

Definition SanitizeEmail (s : gostring) : gostring * option Error :=
  let s := strings.TrimSpace s in
  let s := strings.ToLower unicode_ToLower s in
  if (length s <? 6)%nat || (254 <? length s)%nat
     || negb (strings.Contains s (str "@"))
     || negb (regexp.MatchString emailRegex s)
  then ([], Some ErrorInvalidEmail)
  else (s, None).

Definition SanitizePhoneE164 (ptr : option gostring)
  : option gostring * option Error :=
  match ptr with
  | None => (None, None)
  | Some v =>
    let s := strings.TrimSpace v in
    if bool_decide (s = []) then (None, None)
    else
      let s := keepPlusDigits s in
      if (length s <? 7)%nat || (20 <? length s)%nat then
        (None, Some ErrorInvalidPhoneNumber)
      else (Some s, None)
  end.

Definition SanitizePasswordPolicy (raw : gostring) : gostring * option Error :=
  if bool_decide (strings.TrimSpace raw ≠ raw) then
    ([], Some ErrorPasswordWhiteSpace)
  else
    match passwordvalidator_Validate raw minEntropyBits with
    | Some _ => ([], Some ErrorInvalidPassword)
    | None => (raw, None)
    end.

Definition SanitizeColorFormat (colorHex : option gostring)
  : option gostring * option Error :=
  match colorHex with
  | None => (None, None)
  | Some v =>
    let s := strings.TrimSpace v in
    if bool_decide (s = []) then (None, None)
    else if negb (regexp.MatchString hexRegex s) then
      (None, Some ErrorInvalidBannerColor)
    else (Some s, None)
  end.

Definition SanitizeText (text : option gostring)
  : option gostring * option Error :=
  match text with
  | None => (None, None)
  | Some v =>
    let s := strings.TrimSpace v in
    if bool_decide (s = []) then (None, None)
    else
      let s := UGCPolicy_Sanitize s in
      (Some s, None)
  end.

(** [content] is dereferenced before anything else. *)
Definition SanitizeMessageContent (content : option gostring)
  : outcome (option gostring) :=
  bind (deref content) (fun v =>
    let s := strings.TrimSpace v in
    let s := NFKC s in
    let s := UGCPolicy_Sanitize s in
    Returns (Some s)).

Definition ValidateFileName (fileName : gostring) : gostring * option Error :=
  let s := strings.TrimSpace fileName in
  let err := os_Stat s in
  if bool_decide (err = None) && os.IsNotExist err then (s, None)
  else ([], Some ErrorInvalidFileName).

Definition ValidateFileType (fileType : option gostring) (url : gostring)
  : option gostring * option Error :=
  let ext := strings.ToLower unicode_ToLower (filepath.Ext url) in
  if bool_decide (ext ∈ blockedExt) then (None, Some ErrorBadFileType)
  else
    match fileType with
    | Some v =>
      if negb (strings.Contains (strings.ToLower unicode_ToLower v) ext) then
        (None, Some ErrorFileUnmatch)
      else (Some ext, None)
    | None => (Some ext, None)
    end.
End Sanitizers.

End utils.

(** * Predicates of the statements *)

(** A string that is empty or whose first byte is not a continuation byte:
    no rune decoded before it can reach into it. *)
Definition rune_boundary (b : gostring) : Prop :=
  match b with
  | [] => True
  | h :: _ => byteZ h < 0x80 \/ 0xC0 <= byteZ h
  end.

(** The rune an ASCII byte decodes to, with the byte. *)
Definition ascii_piece (c : ascii) : rune * gostring := (byteZ c, [c]).

(** A list of decoded runes that is the decoding of its own bytes. *)
Definition decoded (rs : list (rune * gostring)) : Prop :=
  utf8.runes (utf8.bytes_of rs) = rs.

(** A field: a non-empty string without any white space rune. *)
Definition word (w : gostring) : Prop :=
  w <> [] /\ Forall (fun x => strings.space_rune x = false) (utf8.runes w).

(** The first, respectively the last, rune of [s] is white space. *)
Definition leading_space (s : gostring) : bool :=
  match head (utf8.runes s) with
  | Some x => strings.space_rune x
  | None => false
  end.

Definition trailing_space (s : gostring) : bool :=
  match last (utf8.runes s) with
  | Some x => strings.space_rune x
  | None => false
  end.

(** The bytes ['+'] and ['0' .. '9']. *)
Definition plus_or_digit (c : ascii) : bool :=
  Ascii.eqb c "+" || ((byteZ "0" <=? byteZ c) && (byteZ c <=? byteZ "9")).

Definition is_lower_ascii (c : ascii) : bool :=
  (byteZ "a" <=? byteZ c) && (byteZ c <=? byteZ "z").

(** The bytes of the class [[a-z0-9_.-]]. *)
Definition username_byte (c : ascii) : bool :=
  is_lower_ascii c
  || ((byteZ "0" <=? byteZ c) && (byteZ c <=? byteZ "9"))
  || Ascii.eqb c "_" || Ascii.eqb c "." || Ascii.eqb c "-".

(** The upper-casing of an ASCII string ([s.upper ()] in the spec). *)
Definition upper_byte (c : ascii) : ascii :=
  if is_lower_ascii c then byte_of (byteZ c - (byteZ "a" - byteZ "A")) else c.

Definition ascii_upper (s : gostring) : gostring := map upper_byte s.

(** The bytes of the class [[a-zA-Z0-9_.\- ]] of [hallNameRegex]. *)
Definition hallname_byte (c : ascii) : bool :=
  is_lower_ascii c || strings.is_upper_ascii c
  || ((byteZ "0" <=? byteZ c) && (byteZ c <=? byteZ "9"))
  || Ascii.eqb c "_" || Ascii.eqb c "." || Ascii.eqb c "-" || Ascii.eqb c " ".

(** The bytes of the class [[0-9a-fA-F]] of [hexRegex]. *)
Definition hex_byte (c : ascii) : bool :=
  ((byteZ "0" <=? byteZ c) && (byteZ c <=? byteZ "9"))
  || ((byteZ "a" <=? byteZ c) && (byteZ c <=? byteZ "f"))
  || ((byteZ "A" <=? byteZ c) && (byteZ c <=? byteZ "F")).

(** An ASCII byte that is not white space. *)
Definition plain_byte (c : ascii) : Prop :=
  byteZ c < 0x80 /\ unicode.IsSpace (byteZ c) = false.

(** The runes a pattern can read: those of its literals and classes. *)
Fixpoint alphabet (re : regexp.Regexp) (r : rune) : bool :=
  match re with
  | regexp.OpBeginText | regexp.OpEndText => false
  | regexp.OpLiteral x => r =? x
  | regexp.OpCharClass ranges => regexp.in_class ranges r
  | regexp.OpConcat a b => alphabet a r || alphabet b r
  | regexp.OpRepeat _ _ sub | regexp.OpStar sub | regexp.OpPlus sub
  | regexp.OpQuest sub => alphabet sub r
  end.

(** The pattern ends with [$]. *)
Fixpoint ends_anchored (re : regexp.Regexp) : bool :=
  match re with
  | regexp.OpEndText => true
  | regexp.OpConcat _ b => ends_anchored b
  | _ => false
  end.

(** The rune is one of the ASCII letters ['A' .. 'Z']. *)
Definition upper_rune (r : rune) : bool :=
  (rune_lit "A" <=? r) && (r <=? rune_lit "Z").

(** A byte other than the dot and the path separator. *)
Definition ext_body_byte (c : ascii) : bool :=
  negb (Ascii.eqb c ".") && negb (filepath.IsPathSeparator c).

(** The two sides of the at sign in [emailRegex]. *)
Definition email_local : regexp.Regexp :=
  regexp.OpPlus
    (regexp.OpCharClass
       (utils.alnum ++
        map regexp.single
          ["."; "!"; "#"; "$"; "%"; "&"; "'"; "*"; "+"; "/"; "="; "?";
           "^"; "_"; "`"; "{"; "|"; "}"; "~"; "-"]%char)).

Definition email_domain : regexp.Regexp :=
  regexp.OpConcat utils.emailLabel
    (regexp.OpConcat
       (regexp.OpStar
          (regexp.OpConcat (regexp.OpLiteral (rune_lit ".")) utils.emailLabel))
       regexp.OpEndText).

(** ** Stand-ins for the libraries, for concrete instances

    The case table restricted to the ASCII letters; the normaliser restricted
    to strings that are already in NFKC form (every ASCII string is one), on
    which it is the identity; a password estimator that accepts; and the
    error [os.Stat] gives on a file system without any entry. *)
Definition ascii_ToLower (r : rune) : rune :=
  if (rune_lit "A" <=? r) && (r <=? rune_lit "Z")
  then r + (rune_lit "a" - rune_lit "A")
  else r.

Definition NFKC_of_normalized (s : gostring) : gostring := s.

Definition Validate_accepting : gostring -> Z -> option gostring :=
  fun _ _ => None.

Definition Stat_empty_fs : gostring -> os.error := fun _ => Some os.ENOENT.

(** Thirty-two times the Cyrillic letter U+044F, two bytes each. *)
Definition ya32 : gostring := concat (replicate 32 (str "я")).

(** * Tactics *)

(** Boolean tests in hypotheses, as propositions. *)
Ltac bool_hyps :=
  repeat match goal with
         | H : (_ || _) = true |- _ => apply orb_true_iff in H; destruct H
         | H : (_ || _) = false |- _ => apply orb_false_iff in H; destruct H
         | H : (_ && _) = true |- _ => apply andb_true_iff in H; destruct H
         | H : (_ && _) = false |- _ => apply andb_false_iff in H; destruct H
         | H : negb _ = true |- _ => apply negb_true_iff in H
         | H : negb _ = false |- _ => apply negb_false_iff in H
         | H : (_ <? _) = true |- _ => apply Z.ltb_lt in H
         | H : (_ <? _) = false |- _ => apply Z.ltb_ge in H
         | H : (_ <=? _) = true |- _ => apply Z.leb_le in H
         | H : (_ <=? _) = false |- _ => apply Z.leb_gt in H
         | H : (_ =? _) = true |- _ => apply Z.eqb_eq in H
         | H : (_ =? _) = false |- _ => apply Z.eqb_neq in H
         | H : (_ <? _)%nat = true |- _ => apply Nat.ltb_lt in H
         | H : (_ <? _)%nat = false |- _ => apply Nat.ltb_ge in H
         | H : (_ <=? _)%nat = true |- _ => apply Nat.leb_le in H
         | H : (_ <=? _)%nat = false |- _ => apply Nat.leb_gt in H
         end.

(** Rune literals in hypotheses, evaluated. *)
Ltac rune_lits :=
  repeat match goal with
         | H : context [rune_lit ?c] |- _ =>
           let v := eval vm_compute in (rune_lit c) in
           change (rune_lit c) with v in H
         end.

(** Powers of two with a literal exponent, evaluated. *)
Ltac pow2 :=
  repeat match goal with
         | |- context [2 ^ ?k] =>
           let v := eval vm_compute in (2 ^ k) in change (2 ^ k) with v
         end.

(** * Facts about the UTF-8 decoder *)

Lemma byteZ_range (c : ascii) : 0 <= byteZ c < 256.
Proof.
  unfold byteZ. pose proof (N_ascii_bounded c) as H. lia.
Qed.

Lemma byteZ_inj (c d : ascii) : byteZ c = byteZ d -> c = d.
Proof.
  unfold byteZ. intros H. apply N2Z.inj in H.
  rewrite <- (ascii_N_embedding c), <- (ascii_N_embedding d). by rewrite H.
Qed.

(** What the table [first] says about a byte. *)
Lemma first_AS b : utf8.first b = utf8.AS -> b < 0x80.
Proof. unfold utf8.first. repeat case_match; try discriminate; lia. Qed.

Lemma first_XX b : utf8.first b = utf8.XX -> 0x80 <= b.
Proof. unfold utf8.first. repeat case_match; try discriminate; lia. Qed.

Lemma first_LEAD b sz lo hi :
  utf8.first b = utf8.LEAD sz lo hi ->
  0xC2 <= b /\ (2 <= sz <= 4)%nat /\ 0x80 <= lo /\ hi <= 0xBF
  /\ (sz = 2%nat -> b <= 0xDF)
  /\ (sz = 3%nat -> 0xE0 <= b <= 0xEF /\ (b = 0xE0 -> lo = 0xA0))
  /\ (sz = 4%nat -> 0xF0 <= b <= 0xF4 /\ (b = 0xF0 -> lo = 0x90)).
Proof.
  unfold utf8.first, utf8.locb, utf8.hicb.
  repeat case_match; intros [= <- <- <-]; repeat split; try lia; try discriminate;
    intros; lia.
Qed.

(** The width of a decoded rune: at least one byte, never past the end. *)
Lemma DecodeRune_width (s : gostring) :
  s <> [] ->
  (1 <= (utf8.DecodeRuneInString s).2 <= length s)%nat.
Proof.
  intros Hs. unfold utf8.DecodeRuneInString.
  destruct s as [|c0 t]; [done|]. cbn [length Nat.ltb Nat.leb].
  destruct (utf8.first _) as [| |sz lo hi] eqn:Hf; cbn; try lia.
  apply first_LEAD in Hf as (_ & Hsz & _).
  repeat case_match; cbn; try lia;
    repeat match goal with
           | H : (_ <? _)%nat = _ |- _ => apply Nat.ltb_ge in H || apply Nat.ltb_lt in H
           | H : (_ <=? _)%nat = _ |- _ => apply Nat.leb_le in H || apply Nat.leb_gt in H
           end; cbn in *; lia.
Qed.

Lemma runes_from_enough (fuel : nat) (s : gostring) :
  (length s <= fuel)%nat -> utf8.runes_from fuel s = utf8.runes s.
Proof.
  unfold utf8.runes. revert s.
  induction (lt_wf fuel) as [fuel _ IH]. intros s Hlen.
  destruct s as [|c t]; [by destruct fuel|].
  destruct fuel as [|fuel]; [cbn in Hlen; lia|].
  cbn [length utf8.runes_from].
  pose proof (DecodeRune_width (c :: t) ltac:(done)) as Hw.
  destruct (utf8.DecodeRuneInString (c :: t)) as [r n]. cbn [snd] in Hw.
  f_equal.
  assert (Hd : (length (drop n (c :: t)) <= length t)%nat).
  { rewrite length_drop. cbn [length]. lia. }
  rewrite (IH fuel) by (cbn in Hlen; lia).
  rewrite (IH (length t)); [done| |done].
  cbn in Hlen. lia.
Qed.

(** One iteration of [for i, r := range s]. *)
Lemma runes_nil : utf8.runes [] = [].
Proof. reflexivity. Qed.

Lemma runes_step (s : gostring) :
  s <> [] ->
  utf8.runes s =
  ((utf8.DecodeRuneInString s).1, take (utf8.DecodeRuneInString s).2 s)
    :: utf8.runes (drop (utf8.DecodeRuneInString s).2 s).
Proof.
  intros Hs. destruct s as [|c t]; [done|].
  unfold utf8.runes at 1. cbn [length utf8.runes_from].
  pose proof (DecodeRune_width (c :: t) ltac:(done)) as Hw.
  destruct (utf8.DecodeRuneInString (c :: t)) as [r n]. cbn [fst snd] in *.
  f_equal. apply runes_from_enough.
  rewrite length_drop. cbn [length]. lia.
Qed.

(** Induction along the iteration. *)
Lemma runes_ind (P : gostring -> list (rune * gostring) -> Prop) :
  P [] [] ->
  (forall s r n,
      s <> [] -> utf8.DecodeRuneInString s = (r, n) ->
      (1 <= n <= length s)%nat ->
      P (drop n s) (utf8.runes (drop n s)) ->
      P s ((r, take n s) :: utf8.runes (drop n s))) ->
  forall s, P s (utf8.runes s).
Proof.
  intros Hnil Hstep s.
  remember (length s) as k eqn:Hk. revert s Hk.
  induction (lt_wf k) as [k _ IH]. intros s ->.
  destruct s as [|c t]; [exact Hnil|].
  rewrite runes_step by done.
  pose proof (DecodeRune_width (c :: t) ltac:(done)) as Hw.
  destruct (utf8.DecodeRuneInString (c :: t)) as [r n] eqn:Hd. cbn [fst snd] in *.
  apply Hstep; [done|done|done|].
  eapply IH; [|reflexivity]. rewrite length_drop. lia.
Qed.

(** Decoding loses no byte: the pieces put together are the string. *)
Lemma bytes_of_runes (s : gostring) : utf8.bytes_of (utf8.runes s) = s.
Proof.
  apply (runes_ind (fun s rs => utf8.bytes_of rs = s)); [done|].
  intros s0 r n _ _ _ IH. unfold utf8.bytes_of in *. cbn [map concat snd].
  rewrite IH. apply take_drop.
Qed.

Lemma runes_pieces_nonempty (s : gostring) :
  Forall (fun x : rune * gostring => x.2 <> []) (utf8.runes s).
Proof.
  apply (runes_ind (fun _ rs => Forall (fun x : rune * gostring => x.2 <> []) rs));
    [constructor|].
  intros s0 r n Hs _ Hn IH. constructor; [|done]. cbn.
  destruct s0; [done|]. destruct n; [lia|done].
Qed.

Lemma runes_eq_nil (s : gostring) : utf8.runes s = [] -> s = [].
Proof.
  intros H. rewrite <- (bytes_of_runes s), H. reflexivity.
Qed.

Lemma RuneCount_le_length (s : gostring) :
  (utf8.RuneCountInString s <= length s)%nat.
Proof.
  unfold utf8.RuneCountInString.
  apply (runes_ind (fun s rs => (length rs <= length s)%nat)); [done|].
  intros s0 r n _ _ Hn IH. cbn [length]. rewrite length_drop in IH. lia.
Qed.

Lemma DecodeRune_app (a b : gostring) :
  a <> [] -> rune_boundary b ->
  utf8.DecodeRuneInString (a ++ b) = utf8.DecodeRuneInString a.
Proof.
  intros Ha Hb. unfold utf8.DecodeRuneInString.
  destruct a as [|c0 a]; [done|].
  change (utf8.at_ ((c0 :: a) ++ b) 0) with (byteZ c0).
  change (utf8.at_ (c0 :: a) 0) with (byteZ c0).
  change (length ((c0 :: a) ++ b) <? 1)%nat with false.
  change (length (c0 :: a) <? 1)%nat with false. cbv iota.
  destruct (utf8.first (byteZ c0)) as [| |sz lo hi] eqn:Hf; [done|done|].
  apply first_LEAD in Hf as (_ & Hsz & Hlo & Hhi & _).
  assert (Hcases : sz = 2%nat \/ sz = 3%nat \/ sz = 4%nat) by lia.
  unfold utf8.locb, utf8.hicb, utf8.at_.
  destruct a as [|c1 [|c2 [|c3 a]]]; destruct b as [|h b];
    destruct Hcases as [-> | [-> | ->]]; simpl in *; try done;
    repeat case_match; bool_hyps; try done; lia.
Qed.

(** Decoding a concatenation piece by piece. *)
Lemma runes_app (a b : gostring) :
  rune_boundary b -> utf8.runes (a ++ b) = utf8.runes a ++ utf8.runes b.
Proof.
  intros Hb.
  apply (runes_ind (fun a rs => utf8.runes (a ++ b) = rs ++ utf8.runes b)); [done|].
  intros s r n Hs Hd Hn IH.
  assert (Hne : s ++ b <> []) by (destruct s; done).
  rewrite (runes_step _ Hne), (DecodeRune_app _ _ Hs Hb), Hd. cbn [fst snd app].
  rewrite take_app_le, drop_app_le by lia. by rewrite IH.
Qed.

Lemma Zlor_ge_l (a b : Z) : 0 <= a -> 0 <= b -> a <= Z.lor a b.
Proof.
  intros Ha Hb. pose proof (Z.add_lor_land a b) as Hsum.
  assert (Z.land a b <= b).
  { rewrite <- (Z2N.id a), <- (Z2N.id b) by lia.
    rewrite <- N2Z.inj_land. apply N2Z.inj_le, N.land_le_r. }
  lia.
Qed.

Lemma Zlor_ge_r (a b : Z) : 0 <= a -> 0 <= b -> b <= Z.lor a b.
Proof. intros. rewrite Z.lor_comm. by apply Zlor_ge_l. Qed.

(** A decoded rune is either one ASCII byte, which is its own value, or it
    is at least [RuneSelf] and made of bytes that are not ASCII. *)
Lemma DecodeRune_class (c : ascii) (t : gostring) :
  (byteZ c < 0x80 /\ utf8.DecodeRuneInString (c :: t) = (byteZ c, 1%nat))
  \/ (0x80 <= byteZ c
      /\ 0x80 <= (utf8.DecodeRuneInString (c :: t)).1
      /\ Forall (fun d => 0x80 <= byteZ d)
                (take (utf8.DecodeRuneInString (c :: t)).2 (c :: t))).
Proof.
  unfold utf8.DecodeRuneInString.
  change (utf8.at_ (c :: t) 0) with (byteZ c).
  change (length (c :: t) <? 1)%nat with false. cbv iota.
  destruct (utf8.first (byteZ c)) as [| |sz lo hi] eqn:Hf.
  { left. split; [by apply first_AS|done]. }
  { right. apply first_XX in Hf. cbn. repeat split; [done|done|].
    repeat constructor; done. }
  right. apply first_LEAD in Hf as (Hc & Hsz & Hlo & Hhi & H2 & H3 & H4).
  assert (Hc80 : 0x80 <= byteZ c) by lia.
  split; [done|].
  assert (Herr : 0x80 <= (utf8.RuneError, 1%nat).1
                 /\ Forall (fun d => 0x80 <= byteZ d)
                           (take (utf8.RuneError, 1%nat).2 (c :: t))).
  { cbn. split; [done|]. repeat constructor; done. }
  repeat case_match; try exact Herr; bool_hyps.
  - (* two bytes *)
    destruct t as [|c1 t]; [cbn in *; lia|].
    unfold utf8.at_ in *. cbn [nth fst snd take] in *.
    assert (sz = 2%nat) as -> by lia. specialize (H2 eq_refl).
    pose proof (byteZ_range c). pose proof (byteZ_range c1).
    split; [|repeat constructor; lia].
    etransitivity; [|apply Zlor_ge_l].
    + change utf8.mask2 with (Z.ones 5). rewrite Z.land_ones, Z.shiftl_mul_pow2 by lia. pow2.
      Z.div_mod_to_equations. lia.
    + apply Z.shiftl_nonneg, Z.land_nonneg. lia.
    + apply Z.land_nonneg. lia.
  - (* three bytes *)
    destruct t as [|c1 [|c2 t]]; [cbn in *; lia|cbn in *; lia|].
    unfold utf8.at_, utf8.locb, utf8.hicb in *. cbn [nth fst snd take] in *.
    assert (sz = 3%nat) as -> by lia. destruct (H3 eq_refl) as [H3a H3b].
    pose proof (byteZ_range c). pose proof (byteZ_range c1).
    pose proof (byteZ_range c2).
    split; [|repeat constructor; lia].
    etransitivity; [|apply Zlor_ge_l].
    + destruct (decide (byteZ c = 0xE0)) as [He|He].
      * etransitivity; [|apply Zlor_ge_r].
        -- change utf8.maskx with (Z.ones 6).
           rewrite Z.land_ones, Z.shiftl_mul_pow2 by lia. pow2.
           specialize (H3b He). Z.div_mod_to_equations. lia.
        -- apply Z.shiftl_nonneg, Z.land_nonneg. lia.
        -- apply Z.shiftl_nonneg, Z.land_nonneg. lia.
      * etransitivity; [|apply Zlor_ge_l].
        -- change utf8.mask3 with (Z.ones 4).
           rewrite Z.land_ones, Z.shiftl_mul_pow2 by lia. pow2.
           Z.div_mod_to_equations. lia.
        -- apply Z.shiftl_nonneg, Z.land_nonneg. lia.
        -- apply Z.shiftl_nonneg, Z.land_nonneg. lia.
    + apply Z.lor_nonneg; split; apply Z.shiftl_nonneg, Z.land_nonneg; lia.
    + apply Z.land_nonneg. lia.
  - (* four bytes *)
    destruct t as [|c1 [|c2 [|c3 t]]]; [cbn in *; lia..|].
    unfold utf8.at_, utf8.locb, utf8.hicb in *. cbn [nth fst snd take] in *.
    assert (sz = 4%nat) as -> by lia. destruct (H4 eq_refl) as [H4a H4b].
    pose proof (byteZ_range c). pose proof (byteZ_range c1).
    pose proof (byteZ_range c2). pose proof (byteZ_range c3).
    split; [|repeat constructor; lia].
    etransitivity; [|apply Zlor_ge_l].
    + etransitivity; [|apply Zlor_ge_l].
      * destruct (decide (byteZ c = 0xF0)) as [He|He].
        -- etransitivity; [|apply Zlor_ge_r].
           ++ change utf8.maskx with (Z.ones 6).
              rewrite Z.land_ones, Z.shiftl_mul_pow2 by lia. pow2.
              specialize (H4b He). Z.div_mod_to_equations. lia.
           ++ apply Z.shiftl_nonneg, Z.land_nonneg. lia.
           ++ apply Z.shiftl_nonneg, Z.land_nonneg. lia.
        -- etransitivity; [|apply Zlor_ge_l].
           ++ change utf8.mask4 with (Z.ones 3).
              rewrite Z.land_ones, Z.shiftl_mul_pow2 by lia. pow2.
           Z.div_mod_to_equations. lia.
           ++ apply Z.shiftl_nonneg, Z.land_nonneg. lia.
           ++ apply Z.shiftl_nonneg, Z.land_nonneg. lia.
      * apply Z.lor_nonneg; split; apply Z.shiftl_nonneg, Z.land_nonneg; lia.
      * apply Z.shiftl_nonneg, Z.land_nonneg. lia.
    + repeat (apply Z.lor_nonneg; split);
        apply Z.shiftl_nonneg, Z.land_nonneg; lia.
    + apply Z.land_nonneg. lia.
Qed.

(** A string of ASCII bytes decodes byte by byte. *)
Lemma runes_ascii (s : gostring) :
  Forall (fun c => byteZ c < 0x80) s -> utf8.runes s = map ascii_piece s.
Proof.
  induction 1 as [|c t Hc _ IH]; [done|].
  rewrite runes_step by done.
  destruct (DecodeRune_class c t) as [[_ ->]|[Hge _]]; [|lia].
  simpl. rewrite take_0, drop_0. by rewrite IH.
Qed.

(** Conversely, runes below [RuneSelf] only come from ASCII bytes. *)
Lemma runes_all_ascii (s : gostring) :
  Forall (fun x : rune * gostring => x.1 < 0x80) (utf8.runes s) ->
  Forall (fun c => byteZ c < 0x80) s.
Proof.
  apply (runes_ind (fun s rs =>
    Forall (fun x : rune * gostring => x.1 < 0x80) rs ->
    Forall (fun c => byteZ c < 0x80) s)); [done|].
  intros s0 r n Hs Hd Hn IH Hall. inversion Hall as [|? ? Hr Hrest]; subst.
  destruct s0 as [|c t]; [done|].
  destruct (DecodeRune_class c t) as [[Hc He]|[_ [Hge _]]].
  - rewrite He in Hd. injection Hd as <- <-. constructor; [done|].
    by apply IH.
  - rewrite Hd in Hge. cbn in *. lia.
Qed.

Lemma bytes_of_app (a b : list (rune * gostring)) :
  utf8.bytes_of (a ++ b) = utf8.bytes_of a ++ utf8.bytes_of b.
Proof. unfold utf8.bytes_of. by rewrite map_app, concat_app. Qed.

Lemma bytes_of_cons (x : rune * gostring) (rs : list (rune * gostring)) :
  utf8.bytes_of (x :: rs) = x.2 ++ utf8.bytes_of rs.
Proof. reflexivity. Qed.

Lemma decoded_runes (s : gostring) : decoded (utf8.runes s).
Proof. unfold decoded. by rewrite bytes_of_runes. Qed.

Lemma decoded_tail (x : rune * gostring) (rs : list (rune * gostring)) :
  decoded (x :: rs) -> decoded rs.
Proof.
  unfold decoded. intros H.
  set (s := utf8.bytes_of (x :: rs)) in *.
  assert (Hs : s <> []) by (intros E; rewrite E in H; discriminate).
  rewrite (runes_step s Hs) in H. injection H as _ Hrest.
  rewrite <- Hrest at 1. by rewrite bytes_of_runes.
Qed.

Lemma decoded_suffix (a b : list (rune * gostring)) :
  decoded (a ++ b) -> decoded b.
Proof.
  induction a as [|x a IH]; [done|]. intros H. apply IH.
  by apply decoded_tail with x.
Qed.

Lemma decoded_prefix (a b : list (rune * gostring)) :
  decoded (a ++ b) -> rune_boundary (utf8.bytes_of b) -> decoded a.
Proof.
  intros Hab Hb. pose proof (decoded_suffix _ _ Hab) as Hdb.
  unfold decoded in *. rewrite bytes_of_app, runes_app in Hab by done.
  rewrite Hdb in Hab. by apply app_inv_tail in Hab.
Qed.

Lemma decoded_pieces_nonempty (rs : list (rune * gostring)) :
  decoded rs -> Forall (fun x : rune * gostring => x.2 <> []) rs.
Proof. intros <-. apply runes_pieces_nonempty. Qed.

(** A white space rune never starts with a continuation byte. *)
Lemma space_head_boundary (s : gostring) x rs :
  utf8.runes s = x :: rs -> strings.space_rune x = true -> rune_boundary s.
Proof.
  intros Hr Hsp. destruct s as [|c t]; [done|].
  rewrite runes_step in Hr by done. injection Hr as <- _.
  unfold strings.space_rune in Hsp. cbn [fst] in Hsp. cbn.
  unfold utf8.DecodeRuneInString in Hsp.
  change (utf8.at_ (c :: t) 0) with (byteZ c) in Hsp.
  change (length (c :: t) <? 1)%nat with false in Hsp. cbv iota in Hsp.
  destruct (utf8.first (byteZ c)) as [| |sz lo hi] eqn:Hf.
  - left. by apply first_AS.
  - discriminate.
  - right. apply first_LEAD in Hf. lia.
Qed.

(** * Facts about [strings.TrimSpace] *)

Lemma drop_while_suffix {A} (f : A -> bool) (l : list A) :
  strings.drop_while f l `suffix_of` l.
Proof.
  induction l as [|x l IH]; cbn; [done|].
  destruct (f x); [by apply suffix_cons_r|done].
Qed.

Lemma drop_while_head {A} (f : A -> bool) (l : list A) :
  (forall x, head l = Some x -> f x = false) -> strings.drop_while f l = l.
Proof.
  destruct l as [|x l]; [done|]. intros H. cbn. by rewrite (H x).
Qed.

Lemma bytes_of_length_reverse (rs : list (rune * gostring)) :
  length (utf8.bytes_of (reverse rs)) = length (utf8.bytes_of rs).
Proof.
  induction rs as [|x rs IH]; [done|].
  rewrite reverse_cons, bytes_of_app, !bytes_of_cons, !length_app, IH.
  cbn. lia.
Qed.

Lemma bytes_of_length_suffix (a b : list (rune * gostring)) :
  a `suffix_of` b -> (length (utf8.bytes_of a) <= length (utf8.bytes_of b))%nat.
Proof.
  intros [k ->]. rewrite bytes_of_app, length_app. lia.
Qed.

Lemma trim_right_length f (rs : list (rune * gostring)) :
  (length (utf8.bytes_of (strings.trim_right f rs))
   <= length (utf8.bytes_of rs))%nat.
Proof.
  unfold strings.trim_right. rewrite bytes_of_length_reverse.
  etransitivity; [apply bytes_of_length_suffix, drop_while_suffix|].
  by rewrite bytes_of_length_reverse.
Qed.

(** Dropping a white space rune at the end makes the string shorter. *)
Lemma trim_right_shorter f (rs : list (rune * gostring)) x :
  last rs = Some x -> f x = true -> x.2 <> [] ->
  (length (utf8.bytes_of (strings.trim_right f rs))
   < length (utf8.bytes_of rs))%nat.
Proof.
  intros Hlast Hf Hx. unfold strings.trim_right.
  rewrite bytes_of_length_reverse, <- (bytes_of_length_reverse rs).
  rewrite <- head_reverse in Hlast.
  destruct (reverse rs) as [|y l]; [done|]. injection Hlast as ->.
  cbn [strings.drop_while]. rewrite Hf.
  pose proof (bytes_of_length_suffix _ _ (drop_while_suffix f l)).
  rewrite bytes_of_cons, length_app. destruct (x.2); [done|]. cbn. lia.
Qed.

(** A string whose first and last runes are not white space is its own
    trimming. *)
Lemma TrimSpace_fixed (s : gostring) :
  leading_space s = false -> trailing_space s = false ->
  strings.TrimSpace s = s.
Proof.
  unfold leading_space, trailing_space, strings.TrimSpace.
  unfold strings.trim_left, strings.trim_right. intros Hl Ht.
  rewrite (drop_while_head _ (utf8.runes s)).
  2:{ intros x Hx. by rewrite Hx in Hl. }
  rewrite drop_while_head.
  2:{ intros x Hx. rewrite head_reverse in Hx. by rewrite Hx in Ht. }
  by rewrite reverse_involutive, bytes_of_runes.
Qed.

(** White space at either end is cut off: the result is strictly shorter. *)
Lemma TrimSpace_shorter (s : gostring) :
  leading_space s = true \/ trailing_space s = true ->
  (length (strings.TrimSpace s) < length s)%nat.
Proof.
  unfold leading_space, trailing_space, strings.TrimSpace, strings.trim_left.
  pose proof (runes_pieces_nonempty s) as Hne.
  rewrite <- (bytes_of_runes s) at 4.
  destruct (utf8.runes s) as [|x rs] eqn:HR.
  { intros [?|?]; discriminate. }
  intros [Hl|Ht].
  - cbn [head] in Hl. cbn [strings.drop_while]. rewrite Hl.
    eapply Nat.le_lt_trans; [apply trim_right_length|].
    eapply Nat.le_lt_trans;
      [apply bytes_of_length_suffix, drop_while_suffix|].
    rewrite bytes_of_cons, length_app.
    inversion Hne as [|? ? Hx _]; subst. destruct (x.2); [done|]. cbn. lia.
  - destruct (last (x :: rs)) as [y|] eqn:Hlast; [|discriminate].
    pose proof (drop_while_suffix strings.space_rune (x :: rs)) as Hsuf.
    destruct (strings.drop_while strings.space_rune (x :: rs)) as [|z d] eqn:Hd.
    { cbn. rewrite length_app.
      inversion Hne as [|? ? Hx _]; subst. destruct (x.2); [done|]. cbn. lia. }
    eapply Nat.lt_le_trans; [|apply bytes_of_length_suffix, Hsuf].
    apply trim_right_shorter with y; [|done|].
    + destruct Hsuf as [k Hk]. rewrite Hk, last_app in Hlast.
      destruct (last (z :: d)) eqn:E; [done|].
      by apply last_None in E.
    + rewrite Forall_forall in Hne. apply Hne.
      apply last_Some in Hlast as [l' ->]. set_solver.
Qed.

(** * Facts about [strings.Fields] and [strings.Join] *)

Lemma runes_cons_ascii (c : ascii) (t : gostring) :
  byteZ c < 0x80 -> utf8.runes (c :: t) = ascii_piece c :: utf8.runes t.
Proof.
  intros Hc. rewrite runes_step by done.
  destruct (DecodeRune_class c t) as [[_ ->]|[Hge _]]; [|lia].
  simpl. by rewrite take_0, drop_0.
Qed.

(** The decoding of fields joined by single spaces: the decodings of the
    fields, with the rune of a space between two of them. *)
Lemma runes_Join (w : gostring) (F : list gostring) :
  utf8.runes (strings.Join (w :: F) (str " ")) =
  utf8.runes w ++
  match F with
  | [] => []
  | _ :: _ => ascii_piece " " :: utf8.runes (strings.Join F (str " "))
  end.
Proof.
  destruct F as [|w' F]; [by rewrite app_nil_r|].
  change (strings.Join (w :: w' :: F) (str " "))
    with (w ++ " "%char :: strings.Join (w' :: F) (str " ")).
  rewrite runes_app by (by left). by rewrite runes_cons_ascii.
Qed.

(** Reading a run of runes that are not white space extends the span. *)
Lemma fields_from_run (G rest : list (rune * gostring)) (cur : option gostring) :
  Forall (fun x => strings.space_rune x = false) G ->
  strings.fields_from (G ++ rest) cur =
  strings.fields_from rest
    match G with
    | [] => cur
    | _ :: _ => Some (default [] cur ++ utf8.bytes_of G)
    end.
Proof.
  intros HG. revert cur. induction HG as [|x G Hx _ IH]; intros cur; [done|].
  cbn [app strings.fields_from]. rewrite Hx, IH.
  destruct G as [|y G].
  - destruct cur; cbn; by rewrite ?app_nil_r.
  - destruct cur; cbn [default]; rewrite (bytes_of_cons x); [by rewrite app_assoc|].
    done.
Qed.

Lemma word_runes_nonempty (w : gostring) : word w -> utf8.runes w <> [].
Proof. intros [Hw _] E. by apply runes_eq_nil in E. Qed.

(** Splitting what was joined gives the fields back. *)
Lemma Fields_Join (F : list gostring) :
  Forall word F -> strings.Fields (strings.Join F (str " ")) = F.
Proof.
  unfold strings.Fields. induction 1 as [|w F Hw HF IH]; [done|].
  rewrite runes_Join, fields_from_run by apply Hw.
  pose proof (word_runes_nonempty w Hw) as Hne.
  destruct (utf8.runes w) as [|x G] eqn:HR; [done|]. rewrite <- HR.
  rewrite bytes_of_runes. cbn [default app].
  destruct F as [|w' F]; [done|].
  cbn [strings.fields_from]. change (strings.space_rune (ascii_piece " ")) with true.
  cbv iota. by rewrite IH.
Qed.

Lemma Join_nil_iff (F : list gostring) :
  Forall word F -> strings.Join F (str " ") = [] -> F = [].
Proof.
  intros HF E. destruct F as [|w F]; [done|]. exfalso.
  inversion HF as [|? ? [Hw _] _]; subst.
  destruct F; cbn in E; [done|]. by destruct w.
Qed.

(** Joined fields have no white space at either end. *)
Lemma Join_edges (F : list gostring) :
  Forall word F ->
  leading_space (strings.Join F (str " ")) = false
  /\ trailing_space (strings.Join F (str " ")) = false.
Proof.
  unfold leading_space, trailing_space.
  induction 1 as [|w F Hw HF [IHl IHt]]; [done|].
  rewrite runes_Join. pose proof (word_runes_nonempty w Hw) as Hne.
  destruct Hw as [_ Hall]. split.
  - destruct (utf8.runes w) as [|x G]; [done|]. cbn.
    by inversion Hall.
  - destruct F as [|w' F].
    + rewrite app_nil_r. destruct (last (utf8.runes w)) as [y|] eqn:E; [|done].
      rewrite Forall_forall in Hall. apply Hall.
      apply last_Some in E as [l' ->]. set_solver.
    + rewrite last_app, last_cons.
      inversion HF as [|? ? Hw' _]; subst.
      pose proof (word_runes_nonempty _ Hw') as Hne'.
      assert (Hj : utf8.runes (strings.Join (w' :: F) (str " ")) <> []).
      { rewrite runes_Join. by destruct (utf8.runes w'). }
      destruct (last (utf8.runes (strings.Join (w' :: F) (str " ")))) eqn:E.
      * exact IHt.
      * by apply last_None in E.
Qed.

Lemma TrimSpace_Join (F : list gostring) :
  Forall word F ->
  strings.TrimSpace (strings.Join F (str " ")) = strings.Join F (str " ").
Proof.
  intros HF. destruct (Join_edges F HF). by apply TrimSpace_fixed.
Qed.

(** Every field is a word: it is not empty and, read on its own, has no
    white space rune. *)
Lemma fields_from_words (rs G : list (rune * gostring)) :
  decoded (G ++ rs) ->
  Forall (fun x => strings.space_rune x = false) G ->
  Forall word
    (strings.fields_from rs
       match G with [] => None | _ :: _ => Some (utf8.bytes_of G) end).
Proof.
  assert (Hword : forall G : list (rune * gostring),
             G <> [] -> decoded G ->
             Forall (fun x => strings.space_rune x = false) G ->
             word (utf8.bytes_of G)).
  { intros G0 Hne Hdec Hall. split.
    - pose proof (decoded_pieces_nonempty _ Hdec) as Hp.
      destruct G0 as [|x G0]; [done|]. inversion Hp; subst.
      rewrite bytes_of_cons. by destruct (x.2).
    - by rewrite Hdec. }
  revert G. induction rs as [|x rs IH]; intros G Hdec HG.
  - rewrite app_nil_r in Hdec. destruct G as [|y G]; cbn [strings.fields_from].
    { constructor. }
    constructor; [|constructor]. by apply Hword.
  - cbn [strings.fields_from].
    destruct (strings.space_rune x) eqn:Hx.
    + pose proof (decoded_suffix _ _ Hdec) as Hxr.
      assert (Hrest : Forall word (strings.fields_from rs None)).
      { apply (IH []); [|done]. by apply decoded_tail with x. }
      destruct G as [|y G]; [done|].
      constructor; [|done]. apply Hword; [done| |done].
      apply (decoded_prefix _ _ Hdec).
      by apply (space_head_boundary _ x rs).
    + specialize (IH (G ++ [x])). rewrite <- app_assoc in IH.
      specialize (IH Hdec).
      assert (HG' : Forall (fun x => strings.space_rune x = false) (G ++ [x])).
      { apply Forall_app. split; [done|]. by constructor. }
      specialize (IH HG').
      destruct G as [|y G]; cbn [app] in IH.
      * by rewrite bytes_of_cons, app_nil_r in IH.
      * change (y :: G ++ [x]) with ((y :: G) ++ [x]) in IH.
        by rewrite bytes_of_app, (bytes_of_cons x), app_nil_r in IH.
Qed.

Lemma Fields_words (s : gostring) : Forall word (strings.Fields s).
Proof.
  apply (fields_from_words (utf8.runes s) []); [|done].
  apply decoded_runes.
Qed.

(** A word is its only field. *)
Lemma Fields_word (w : gostring) : word w -> strings.Fields w = [w].
Proof.
  intros Hw. change w with (strings.Join [w] (str " ")) at 1.
  apply Fields_Join. by constructor.
Qed.

(** * Facts about the patterns *)

Lemma matches_at_true (re : regexp.Regexp) (c : regexp.config) :
  regexp.matches_at re c = true <-> exists c', In c' (regexp.run re c).
Proof.
  unfold regexp.matches_at. destruct (regexp.run re c) as [|c0 l]; split.
  - discriminate.
  - intros [c' []].
  - intros _. exists c0. by left.
  - done.
Qed.

(** [k] repetitions of a character class read exactly [k] runes of the
    class. *)
Lemma iter_match_class (cls : list (rune * rune)) (k : nat) (b : bool)
      (rs : list rune) (c' : regexp.config) :
  In c' (regexp.iter_match (regexp.run (regexp.OpCharClass cls)) k (b, rs)) <->
  (k <= length rs)%nat
  /\ forallb (regexp.in_class cls) (take k rs) = true
  /\ c' = (match k with O => b | S _ => false end, drop k rs).
Proof.
  revert b rs. induction k as [|k IH]; intros b rs.
  - cbn. rewrite take_0, drop_0. cbn. split.
    + intros [<-|[]]. repeat split. lia.
    + intros (_ & _ & ->). by left.
  - cbn [regexp.iter_match regexp.run snd].
    destruct rs as [|r rest]; cbn [map concat length].
    { split; [intros []|]. intros (H & _). lia. }
    destruct (regexp.in_class cls r) eqn:Hr; cbn [map concat take forallb drop].
    + rewrite app_nil_r, IH, Hr. cbn [andb].
      assert (E : match k with O => false | S _ => false end = false)
        by (by destruct k).
      rewrite E. split; intros (H1 & H2 & H3); repeat split; try done; lia.
    + rewrite Hr. cbn. split; [intros []|]. intros (_ & H & _). discriminate.
Qed.

(** A pattern [^[class]{lo,hi}$] matches the texts of [lo] to [hi] runes of
    the class, and nothing else. *)
Lemma search_anchored_class (cls : list (rune * rune)) (lo hi : nat)
      (rs : list rune) :
  regexp.search
    (regexp.OpConcat regexp.OpBeginText
       (regexp.OpConcat (regexp.OpRepeat lo hi (regexp.OpCharClass cls))
          regexp.OpEndText)) true rs = true
  <-> (lo <= length rs <= hi)%nat /\ forallb (regexp.in_class cls) rs = true.
Proof.
  set (re := regexp.OpConcat _ _).
  assert (Hmid : forall text, regexp.search re false text = false).
  { induction text as [|r text IH]; cbn; [done|]. exact IH. }
  assert (Hhead : regexp.search re true rs = regexp.matches_at re (true, rs)).
  { destruct rs as [|r rest]; cbn [regexp.search].
    - by rewrite orb_false_r.
    - by rewrite Hmid, orb_false_r. }
  rewrite Hhead, matches_at_true. unfold re.
  cbn [regexp.run fst map concat]. rewrite app_nil_r. split.
  - intros (c' & Hc'). apply in_concat in Hc' as (l & Hl & Hin).
    apply in_map_iff in Hl as (m & <- & Hm).
    apply in_concat in Hm as (l2 & Hl2 & Hm).
    apply in_map_iff in Hl2 as (k & <- & Hk). apply in_seq in Hk.
    apply iter_match_class in Hm as (Hlen & Hall & ->).
    cbn [regexp.run snd] in Hin.
    destruct (drop k rs) as [|x l'] eqn:Hd; [|destruct Hin].
    assert (length (drop k rs) = 0%nat) as Hz by (by rewrite Hd).
    rewrite length_drop in Hz.
    assert (k = length rs) as -> by lia.
    rewrite firstn_all in Hall. split; [lia|done].
  - intros (Hlen & Hall).
    exists (match length rs with O => true | S _ => false end, []).
    apply in_concat. eexists. split.
    + apply in_map_iff. eexists. split; [reflexivity|].
      apply in_concat. eexists. split.
      * apply in_map_iff. exists (length rs). split; [reflexivity|].
        apply in_seq. lia.
      * apply iter_match_class. split; [lia|]. split; [by rewrite firstn_all|].
        reflexivity.
    + rewrite drop_all. cbn. by left.
Qed.

Lemma forallb_Forall {A} (f : A -> bool) (l : list A) :
  forallb f l = true <-> Forall (fun x => f x = true) l.
Proof.
  induction l as [|x l IH]; cbn; [done|].
  rewrite andb_true_iff, IH, Forall_cons. done.
Qed.

Lemma forallb_map {A B} (g : A -> B) (f : B -> bool) (l : list A) :
  forallb f (map g l) = forallb (fun x => f (g x)) l.
Proof. induction l as [|x l IH]; cbn; [done|]. by rewrite IH. Qed.

Lemma map_fst_ascii_piece (s : gostring) :
  map fst (map ascii_piece s) = map byteZ s.
Proof. induction s as [|c s IH]; cbn; [done|]. by rewrite IH. Qed.

(** A pattern [^[class]{lo,hi}$] whose class is ASCII, on strings: the
    strings of [lo] to [hi] bytes of the class. *)
Lemma MatchString_anchored_class (cls : list (rune * rune)) (lo hi : nat)
      (in_cls : ascii -> bool) :
  (forall r, regexp.in_class cls r = true -> r < 0x80) ->
  (forall c, regexp.in_class cls (byteZ c) = in_cls c) ->
  forall s,
    regexp.MatchString
      (regexp.OpConcat regexp.OpBeginText
         (regexp.OpConcat (regexp.OpRepeat lo hi (regexp.OpCharClass cls))
            regexp.OpEndText)) s = true
    <-> (lo <= length s <= hi)%nat /\ forallb in_cls s = true.
Proof.
  intros Hascii Hbyte s. unfold regexp.MatchString.
  rewrite search_anchored_class.
  assert (Hs : forall s : gostring,
             Forall (fun c => byteZ c < 0x80) s ->
             length (map fst (utf8.runes s)) = length s
             /\ forallb (regexp.in_class cls) (map fst (utf8.runes s))
                = forallb in_cls s).
  { intros s0 H0. rewrite (runes_ascii s0 H0), map_fst_ascii_piece.
    rewrite length_map, forallb_map. split; [done|].
    clear H0. induction s0 as [|c s0 IH0]; cbn; [done|].
    by rewrite Hbyte, IH0. }
  split; intros (Hlen & Hall).
  - assert (H0 : Forall (fun c => byteZ c < 0x80) s).
    { apply runes_all_ascii. apply forallb_Forall in Hall.
      rewrite Forall_map in Hall. eapply Forall_impl; [exact Hall|].
      intros x Hx. by apply Hascii. }
    destruct (Hs s H0) as [E1 E2]. by rewrite <- E1, <- E2.
  - assert (H0 : Forall (fun c => byteZ c < 0x80) s).
    { apply forallb_Forall in Hall. eapply Forall_impl; [exact Hall|].
      intros c Hc. apply Hascii. by rewrite Hbyte. }
    destruct (Hs s H0) as [E1 E2]. by rewrite E1, E2.
Qed.

Lemma username_byte_facts (c : ascii) :
  username_byte c = true ->
  byteZ c < 0x80
  /\ byteZ (upper_byte c) < 0x80
  /\ unicode.IsSpace (byteZ (upper_byte c)) = false
  /\ strings.lower_byte (upper_byte c) = c.
Proof.
  destruct c as [[] [] [] [] [] [] [] []]; vm_compute; intros H;
    try discriminate H; repeat split; intros; discriminate.
Qed.

(** What [usernameRegex] accepts. *)
Lemma MatchString_usernameRegex (s : gostring) :
  regexp.MatchString utils.usernameRegex s = true
  <-> (3 <= length s <= 32)%nat /\ forallb username_byte s = true.
Proof.
  apply MatchString_anchored_class.
  - intros r Hr. cbn in Hr. bool_hyps; rune_lits; lia.
  - intros c. destruct c as [[] [] [] [] [] [] [] []]; reflexivity.
Qed.

(** * Facts about case *)

Lemma lower_byte_fixed (c : ascii) :
  strings.is_upper_ascii c = false -> strings.lower_byte c = c.
Proof. unfold strings.lower_byte. by intros ->. Qed.

(** On an ASCII string [strings.ToLower] is the byte-wise lower-casing, and
    the Unicode case table is not consulted. *)
Lemma ToLower_ascii (f : rune -> rune) (s : gostring) :
  Forall (fun c => byteZ c < 0x80) s ->
  strings.ToLower f s = map strings.lower_byte s.
Proof.
  intros Hs. unfold strings.ToLower.
  assert (forallb (fun c => byteZ c <? utf8.RuneSelf) s = true) as ->.
  { apply forallb_Forall. eapply Forall_impl; [exact Hs|]. intros c Hc.
    by apply Z.ltb_lt. }
  destruct (existsb strings.is_upper_ascii s) eqn:Hup; [done|]. cbn.
  induction s as [|c s IH]; [done|]. cbn in Hup.
  apply orb_false_iff in Hup as [Hc Hup]. inversion Hs; subst.
  cbn. rewrite lower_byte_fixed by done. f_equal. by apply IH.
Qed.

Lemma ToLower_nil (f : rune -> rune) : strings.ToLower f [] = [].
Proof. reflexivity. Qed.

(** * Facts about white space around an ASCII string *)

Lemma bytes_of_ascii_pieces (u : gostring) :
  utf8.bytes_of (map ascii_piece u) = u.
Proof.
  induction u as [|c u IH]; [done|].
  cbn [map]. rewrite bytes_of_cons, IH. done.
Qed.

Lemma TrimSpace_padded (u : gostring) :
  u <> [] ->
  Forall (fun c => byteZ c < 0x80 /\ unicode.IsSpace (byteZ c) = false) u ->
  strings.TrimSpace (str " " ++ u ++ str " ") = u.
Proof.
  intros Hne Hu.
  assert (Hascii : Forall (fun c => byteZ c < 0x80) (str " " ++ u ++ str " ")).
  { apply Forall_app. split; [by repeat constructor|].
    apply Forall_app. split; [|by repeat constructor].
    eapply Forall_impl; [exact Hu|]. by intros c [? _]. }
  assert (Hns : Forall (fun x => strings.space_rune x = false) (map ascii_piece u)).
  { rewrite Forall_map. eapply Forall_impl; [exact Hu|]. by intros c [_ ?]. }
  unfold strings.TrimSpace. rewrite (runes_ascii _ Hascii), !map_app.
  change (map ascii_piece (str " ")) with [ascii_piece " "].
  set (X := map ascii_piece u) in *.
  assert (HX : X <> []) by (subst X; by destruct u).
  unfold strings.trim_left, strings.trim_right.
  cbn [app strings.drop_while].
  change (strings.space_rune (ascii_piece " ")) with true. cbv iota.
  rewrite (drop_while_head _ (X ++ _)).
  2:{ intros x Hx. destruct X as [|y X]; [done|]. injection Hx as <-.
      by inversion Hns. }
  rewrite reverse_app, reverse_singleton. cbn [app strings.drop_while].
  change (strings.space_rune (ascii_piece " ")) with true. cbv iota.
  rewrite drop_while_head.
  2:{ intros x Hx. rewrite head_reverse in Hx.
      rewrite Forall_forall in Hns. apply Hns.
      apply last_Some in Hx as [l' ->]. set_solver. }
  rewrite reverse_involutive. subst X. apply bytes_of_ascii_pieces.
Qed.

(** * Facts about [keepPlusDigits], [strings.Contains] and [filepath.Ext] *)

Lemma plus_or_digit_rune (c : ascii) :
  ((byteZ c =? rune_lit "+")
   || ((rune_lit "0" <=? byteZ c) && (byteZ c <=? rune_lit "9")))
  = plus_or_digit c.
Proof. destruct c as [[] [] [] [] [] [] [] []]; reflexivity. Qed.

Lemma plus_or_digit_ascii (c : ascii) :
  plus_or_digit c = true -> byteZ c < 0x80.
Proof.
  destruct c as [[] [] [] [] [] [] [] []]; vm_compute; intros H;
    try discriminate H; reflexivity.
Qed.

Lemma EncodeRune_ascii (c : ascii) :
  byteZ c < 0x80 -> utf8.EncodeRune (byteZ c) = [c].
Proof.
  destruct c as [[] [] [] [] [] [] [] []]; vm_compute; intros H;
    try discriminate H; reflexivity.
Qed.

(** The loop of [keepPlusDigits] keeps exactly the bytes ['+'] and
    ['0' .. '9'], in order. *)
Lemma keepPlusDigits_filter (s : gostring) :
  utils.keepPlusDigits s = List.filter plus_or_digit s.
Proof.
  unfold utils.keepPlusDigits.
  set (step := fun (b : gostring) (x : rune * gostring) => _).
  assert (Hfold : forall rs b, fold_left step rs b = b ++ fold_left step rs []).
  { induction rs as [|x rs IH]; intros b; cbn [fold_left].
    - by rewrite app_nil_r.
    - rewrite (IH (step b x)), (IH (step [] x)), app_assoc. f_equal.
      unfold step, strings.WriteRune. by destruct (_ || _); rewrite ?app_nil_r. }
  apply (runes_ind (fun s rs => fold_left step rs [] = List.filter plus_or_digit s));
    [done|].
  intros s0 r n Hs Hd Hn IH. cbn [fold_left]. rewrite Hfold, IH.
  rewrite <- (take_drop n s0) at 3. rewrite List.filter_app. f_equal.
  destruct s0 as [|c t]; [done|].
  destruct (DecodeRune_class c t) as [[Hc He]|[Hc [Hr Hall]]].
  - rewrite He in Hd. injection Hd as <- <-.
    unfold step, strings.WriteRune. cbn [fst app take]. rewrite take_0.
    cbn [List.filter]. rewrite plus_or_digit_rune.
    destruct (plus_or_digit c); [|done]. by apply EncodeRune_ascii.
  - rewrite Hd in Hr, Hall. cbn [fst snd] in Hr, Hall.
    unfold step. cbn [fst].
    assert (((r =? rune_lit "+")
             || ((rune_lit "0" <=? r) && (r <=? rune_lit "9"))) = false) as ->.
    { apply orb_false_iff. split.
      - apply Z.eqb_neq. intros ->. vm_compute in Hr. by apply Hr.
      - apply andb_false_iff. right. apply Z.leb_gt.
        change (rune_lit "9") with 57. lia. }
    symmetry. induction Hall as [|d l Hdge _ IHl]; [done|]. cbn [List.filter].
    destruct (plus_or_digit d) eqn:Hpd; [|exact IHl].
    apply plus_or_digit_ascii in Hpd. lia.
Qed.

Lemma Contains_nil (s : gostring) : strings.Contains s [] = true.
Proof. by destruct s. Qed.

Lemma ext_scan_no_dot (rpath acc : gostring) :
  Forall (fun c => c <> "."%char) rpath -> filepath.ext_scan rpath acc = [].
Proof.
  intros H. revert acc. induction H as [|c rpath Hc _ IH]; intros acc; [done|].
  cbn. destruct (filepath.IsPathSeparator c); [done|].
  destruct (Ascii.eqb c ".") eqn:E; [|apply IH].
  apply Ascii.eqb_eq in E. done.
Qed.

(** A path without any dot has no extension. *)
Lemma Ext_no_dot (path : gostring) :
  Forall (fun c => c <> "."%char) path -> filepath.Ext path = [].
Proof.
  intros H. apply ext_scan_no_dot. by apply Forall_reverse.
Qed.

(** * Facts about trimming what is trimmed *)

Lemma drop_while_dropped {A} (f : A -> bool) (l : list A) :
  exists k, l = k ++ strings.drop_while f l /\ Forall (fun x => f x = true) k.
Proof.
  induction l as [|x l (k & Hk & Hall)]; [by exists []|].
  cbn. destruct (f x) eqn:Hx.
  - exists (x :: k). split; [by rewrite Hk at 1|by constructor].
  - by exists [].
Qed.

Lemma drop_while_head_stops {A} (f : A -> bool) (l : list A) (x : A) :
  head (strings.drop_while f l) = Some x -> f x = false.
Proof.
  induction l as [|y l IH]; [done|]. cbn.
  destruct (f y) eqn:Hy; [exact IH|]. by intros [= <-].
Qed.

Lemma drop_while_twice {A} (f : A -> bool) (l : list A) :
  strings.drop_while f (strings.drop_while f l) = strings.drop_while f l.
Proof. apply drop_while_head. apply drop_while_head_stops. Qed.

(** The runes cut off at the right are white space, and what is left does
    not end in white space. *)
Lemma trim_right_split f (l : list (rune * gostring)) :
  exists B, l = strings.trim_right f l ++ B /\ Forall (fun x => f x = true) B.
Proof.
  unfold strings.trim_right.
  destruct (drop_while_dropped f (reverse l)) as (k & Hk & Hall).
  exists (reverse k). split; [|by apply Forall_reverse].
  rewrite <- reverse_app, <- Hk. by rewrite reverse_involutive.
Qed.

Lemma trim_right_twice f (l : list (rune * gostring)) :
  strings.trim_right f (strings.trim_right f l) = strings.trim_right f l.
Proof.
  unfold strings.trim_right. by rewrite reverse_involutive, drop_while_twice.
Qed.

Lemma trim_left_right_head f (l : list (rune * gostring)) x :
  (forall y, head l = Some y -> f y = false) ->
  head (strings.trim_right f l) = Some x -> f x = false.
Proof.
  intros Hl Hx. destruct (trim_right_split f l) as (B & HB & _).
  destruct (strings.trim_right f l) as [|y M]; [done|].
  injection Hx as ->. apply Hl. by rewrite HB.
Qed.

(** What [strings.TrimSpace] returns decodes to the runes it kept. *)
Lemma TrimSpace_runes (s : gostring) :
  utf8.runes (strings.TrimSpace s)
  = strings.trim_right strings.space_rune
      (strings.trim_left strings.space_rune (utf8.runes s)).
Proof.
  unfold strings.TrimSpace, strings.trim_left.
  set (L := strings.drop_while _ _).
  assert (HL : decoded L).
  { destruct (drop_while_dropped strings.space_rune (utf8.runes s))
      as (k & Hk & _).
    apply (decoded_suffix k). fold L in Hk. rewrite <- Hk. apply decoded_runes. }
  destruct (trim_right_split strings.space_rune L) as (B & HB & Hsp).
  rewrite HB in HL. apply (decoded_prefix _ B HL).
  destruct B as [|x B]; [done|].
  apply (space_head_boundary _ x B); [|by inversion Hsp].
  by apply decoded_suffix in HL.
Qed.

(** Trimming what is trimmed changes nothing. *)
Lemma TrimSpace_idempotent (s : gostring) :
  strings.TrimSpace (strings.TrimSpace s) = strings.TrimSpace s.
Proof.
  unfold strings.TrimSpace at 1. rewrite TrimSpace_runes.
  unfold strings.trim_left at 1.
  rewrite (drop_while_head _ (strings.trim_right _ _)).
  - by rewrite trim_right_twice.
  - intros x. apply trim_left_right_head. apply drop_while_head_stops.
Qed.

Lemma TrimSpace_no_space_bytes (u : gostring) :
  Forall (fun c => byteZ c < 0x80 /\ unicode.IsSpace (byteZ c) = false) u ->
  strings.TrimSpace u = u.
Proof.
  intros Hu.
  assert (Hr : utf8.runes u = map ascii_piece u).
  { apply runes_ascii. eapply Forall_impl; [exact Hu|]. by intros c [? _]. }
  assert (Hns : Forall (fun x => strings.space_rune x = false) (utf8.runes u)).
  { rewrite Hr, Forall_map. eapply Forall_impl; [exact Hu|]. by intros c [_ ?]. }
  rewrite Forall_forall in Hns.
  apply TrimSpace_fixed; unfold leading_space, trailing_space.
  - destruct (head (utf8.runes u)) as [x|] eqn:E; [|done].
    apply Hns. destruct (utf8.runes u); [done|]. injection E as ->. set_solver.
  - destruct (last (utf8.runes u)) as [x|] eqn:E; [|done].
    apply Hns. apply last_Some in E as [l' ->]. set_solver.
Qed.

Lemma lower_username_fixed (s : gostring) :
  forallb username_byte s = true -> map strings.lower_byte s = s.
Proof.
  intros Hcls. apply forallb_Forall in Hcls.
  induction Hcls as [|c s Hc _ IH]; [done|].
  cbn. rewrite IH. f_equal. apply lower_byte_fixed.
  revert Hc. destruct c as [[] [] [] [] [] [] [] []]; vm_compute;
    intros H; done || discriminate H.
Qed.

Lemma username_byte_no_space (c : ascii) :
  username_byte c = true ->
  byteZ c < 0x80 /\ unicode.IsSpace (byteZ c) = false.
Proof.
  destruct c as [[] [] [] [] [] [] [] []]; vm_compute; intros H;
    try discriminate H; split; reflexivity.
Qed.

Lemma plus_or_digit_no_space (c : ascii) :
  plus_or_digit c = true ->
  byteZ c < 0x80 /\ unicode.IsSpace (byteZ c) = false.
Proof.
  destruct c as [[] [] [] [] [] [] [] []]; vm_compute; intros H;
    try discriminate H; split; reflexivity.
Qed.

(** * The claims *)

(** ** C1: [ValidateFileName] *)

(** The guard [err == nil && os.IsNotExist (err)] never holds: [os.IsNotExist]
    of a [nil] error is false. *)
Lemma ValidateFileName_guard (err : os.error) :
  bool_decide (err = None) && os.IsNotExist err = false.
Proof. by destruct err as [[]|]. Qed.

Lemma ValidateFileName_rejects (os_Stat : gostring -> os.error)
      (fileName : gostring) :
  utils.ValidateFileName os_Stat fileName = ([], Some utils.ErrorInvalidFileName).
Proof.
  unfold utils.ValidateFileName. by rewrite ValidateFileName_guard.
Qed.

(** C1, at the failing input.  On a file system where [os.Stat] reports that
    nothing exists at "notes.txt", [ValidateFileName " notes.txt "] still
    fails with [ErrorInvalidFileName] and returns the empty string, where the
    spec promises the trimmed name "notes.txt" and no error; the same holds
    for every name on every file system. *)
Theorem ValidateFileName_rejects_absent_path :
  strings.TrimSpace (str " notes.txt ") = str "notes.txt"
  /\ os.IsNotExist (Stat_empty_fs (str "notes.txt")) = true
  /\ utils.ValidateFileName Stat_empty_fs (str " notes.txt ")
     = ([], Some utils.ErrorInvalidFileName)
  /\ (forall os_Stat fileName,
         utils.ValidateFileName os_Stat fileName
         = ([], Some utils.ErrorInvalidFileName)).
Proof.
  split; [by vm_compute|]. split; [done|].
  split; [apply ValidateFileName_rejects|].
  apply ValidateFileName_rejects.
Qed.

(** ** C3: [SanitizePasswordPolicy] *)

(** C3.  A password whose first or last rune is white space is rejected with
    [ErrorPasswordWhiteSpace], whatever the entropy estimator says, and
    nothing is returned in its place; and whenever a password is accepted,
    the string returned is the input itself, byte for byte. *)
Theorem SanitizePasswordPolicy_whitespace
        (passwordvalidator_Validate : gostring -> Z -> option gostring)
        (raw : gostring) :
  (leading_space raw = true \/ trailing_space raw = true ->
   utils.SanitizePasswordPolicy passwordvalidator_Validate raw
   = ([], Some utils.ErrorPasswordWhiteSpace))
  /\ (forall v,
         utils.SanitizePasswordPolicy passwordvalidator_Validate raw = (v, None) ->
         v = raw).
Proof.
  unfold utils.SanitizePasswordPolicy. split.
  - intros Hsp. apply TrimSpace_shorter in Hsp.
    rewrite bool_decide_eq_true_2; [done|].
    intros E. rewrite E in Hsp. lia.
  - intros v. destruct (bool_decide _); [discriminate|].
    destruct (passwordvalidator_Validate raw utils.minEntropyBits);
      [discriminate|]. by intros [= <-].
Qed.

Lemma SanitizePasswordPolicy_whitespace_witness :
  utils.SanitizePasswordPolicy Validate_accepting (str " password123 ")
  = ([], Some utils.ErrorPasswordWhiteSpace)
  /\ utils.SanitizePasswordPolicy Validate_accepting (str "password123" ++ ["009"%char])
     = ([], Some utils.ErrorPasswordWhiteSpace)
  /\ utils.SanitizePasswordPolicy Validate_accepting
       (str "correct horse battery staple")
     = (str "correct horse battery staple", None).
Proof.
  split; [|split].
  - apply (proj1 (SanitizePasswordPolicy_whitespace Validate_accepting
                    (str " password123 "))).
    left. by vm_compute.
  - apply (proj1 (SanitizePasswordPolicy_whitespace Validate_accepting _)).
    right. by vm_compute.
  - destruct (utils.SanitizePasswordPolicy Validate_accepting
                (str "correct horse battery staple")) as [v [e|]] eqn:E.
    + by vm_compute in E.
    + by rewrite (proj2 (SanitizePasswordPolicy_whitespace Validate_accepting
                           (str "correct horse battery staple")) v E).
Defined.

(** ** C4: [SanitizeDisplayName] is idempotent *)

(** The display name is made of fields joined by single spaces. *)
Lemma SanitizeDisplayName_ok (NFKC : gostring -> gostring) (s t : gostring) :
  utils.SanitizeDisplayName NFKC s = (t, None) ->
  t = strings.Join (strings.Fields (NFKC (strings.TrimSpace s))) (str " ")
  /\ t <> []
  /\ (3 <= utf8.RuneCountInString t <= 32)%nat.
Proof.
  unfold utils.SanitizeDisplayName.
  set (j := strings.Join _ _). destruct (bool_decide (j = [])) eqn:Hj;
    [discriminate|].
  apply bool_decide_eq_false in Hj.
  destruct (_ || _) eqn:Hlen; [discriminate|]. intros [= <-].
  bool_hyps. repeat split; try done; lia.
Qed.

(** A string made of fields joined by single spaces, of 3 to 32 runes and
    left alone by the normaliser, is accepted as it is. *)
Lemma SanitizeDisplayName_joined (NFKC : gostring -> gostring)
      (F : list gostring) :
  let t := strings.Join F (str " ") in
  Forall word F -> NFKC t = t -> t <> [] ->
  (3 <= utf8.RuneCountInString t <= 32)%nat ->
  utils.SanitizeDisplayName NFKC t = (t, None).
Proof.
  intros t HF Hn Hne Hlen. unfold utils.SanitizeDisplayName.
  unfold t in *. rewrite (TrimSpace_Join F HF), Hn, (Fields_Join F HF).
  rewrite bool_decide_eq_false_2 by done.
  destruct (_ || _) eqn:E; [|done]. bool_hyps; lia.
Qed.

(** Reapplication is stable as soon as the normaliser leaves the first
    result alone. *)
Lemma SanitizeDisplayName_stable (NFKC : gostring -> gostring) (s t : gostring) :
  utils.SanitizeDisplayName NFKC s = (t, None) ->
  NFKC t = t ->
  utils.SanitizeDisplayName NFKC t = (t, None).
Proof.
  intros Hok Hn. apply SanitizeDisplayName_ok in Hok as (-> & Hne & Hlen).
  apply SanitizeDisplayName_joined; [apply Fields_words|done..].
Qed.

(** C4.  If [SanitizeDisplayName s] succeeds with [t], then
    [SanitizeDisplayName t] succeeds with [t] again.  The normaliser is the
    library's; what is used of it is that normalising is idempotent, and
    that normalised text stays normalised when its white space runs are
    replaced by single spaces and cut off at both ends (white space does not
    combine with its neighbours). *)
Theorem SanitizeDisplayName_idempotent (NFKC : gostring -> gostring) :
  (forall x, NFKC (NFKC x) = NFKC x) ->
  (forall y, NFKC y = y ->
             NFKC (strings.Join (strings.Fields y) (str " "))
             = strings.Join (strings.Fields y) (str " ")) ->
  forall s t : gostring,
    utils.SanitizeDisplayName NFKC s = (t, None) ->
    utils.SanitizeDisplayName NFKC t = (t, None).
Proof.
  intros Hidem Hcollapse s t Hok.
  apply (SanitizeDisplayName_stable NFKC s t Hok).
  apply SanitizeDisplayName_ok in Hok as (-> & _ & _).
  apply Hcollapse, Hidem.
Qed.

Lemma SanitizeDisplayName_idempotent_witness :
  utils.SanitizeDisplayName NFKC_of_normalized (str "  a " ++ "009"%char :: str " b  ")
  = (str "a b", None)
  /\ utils.SanitizeDisplayName NFKC_of_normalized (str "a b") = (str "a b", None).
Proof.
  assert (H1 : utils.SanitizeDisplayName NFKC_of_normalized
                 (str "  a " ++ "009"%char :: str " b  ")
               = (str "a b", None)) by (by vm_compute).
  split; [exact H1|].
  exact (SanitizeDisplayName_idempotent NFKC_of_normalized
           (fun x => eq_refl) (fun y _ => eq_refl) _ _ H1).
Defined.

(** ** C5: [SanitizeUsername] *)

(** C5.  For a string [s] of 3 to 32 bytes of the class [[a-z0-9_.-]],
    [SanitizeUsername] of [s] in upper case between two spaces returns [s]
    (which is [s] lower-cased) and no error; and an input whose trimmed,
    lower-cased form is shorter than 3 bytes, longer than 32, or has a byte
    outside the class, fails with [ErrorInvalidUsername]. *)
Theorem SanitizeUsername_spec (unicode_ToLower : rune -> rune) :
  (forall s : gostring,
      (3 <= length s <= 32)%nat ->
      forallb username_byte s = true ->
      utils.SanitizeUsername unicode_ToLower (str " " ++ ascii_upper s ++ str " ")
      = (s, None)
      /\ map strings.lower_byte s = s)
  /\ (forall input : gostring,
         let t := strings.ToLower unicode_ToLower (strings.TrimSpace input) in
         (length t < 3)%nat \/ (32 < length t)%nat
         \/ existsb (fun c => negb (username_byte c)) t = true ->
         utils.SanitizeUsername unicode_ToLower input
         = ([], Some utils.ErrorInvalidUsername)).
Proof.
  split.
  - intros s Hlen Hcls. apply forallb_Forall in Hcls.
    assert (Hup : Forall (fun c => byteZ c < 0x80
                                   /\ unicode.IsSpace (byteZ c) = false)
                         (ascii_upper s)).
    { unfold ascii_upper. rewrite Forall_map.
      eapply Forall_impl; [exact Hcls|]. intros c Hc.
      by destruct (username_byte_facts c Hc) as (_ & ? & ? & _). }
    assert (Hlow : map strings.lower_byte (ascii_upper s) = s).
    { unfold ascii_upper. clear Hlen Hup.
      induction Hcls as [|c s Hc _ IH]; [done|]. cbn. rewrite IH.
      by destruct (username_byte_facts c Hc) as (_ & _ & _ & ->). }
    assert (Hfix : map strings.lower_byte s = s).
    { apply lower_username_fixed. by apply forallb_Forall. }
    split; [|exact Hfix].
    unfold utils.SanitizeUsername. rewrite TrimSpace_padded;
      [|destruct s; [cbn in Hlen; lia|done]|done].
    rewrite ToLower_ascii, Hlow.
    2:{ eapply Forall_impl; [exact Hup|]. by intros c [? _]. }
    assert (regexp.MatchString utils.usernameRegex s = true) as ->; [|done].
    apply MatchString_usernameRegex. split; [done|]. by apply forallb_Forall.
  - intros input t Hbad. unfold utils.SanitizeUsername. fold t.
    destruct (regexp.MatchString utils.usernameRegex t) eqn:Hm; [|done].
    apply MatchString_usernameRegex in Hm as [Hlen Hcls].
    destruct Hbad as [?|[?|Hex]]; [lia|lia|].
    apply existsb_exists in Hex as (c & Hin & Hc).
    rewrite forallb_forall in Hcls. rewrite (Hcls c Hin) in Hc. discriminate.
Qed.

Lemma SanitizeUsername_spec_witness :
  utils.SanitizeUsername ascii_ToLower (str " ALICE_01.X-Y ")
  = (str "alice_01.x-y", None)
  /\ utils.SanitizeUsername ascii_ToLower (str "  Al ")
     = ([], Some utils.ErrorInvalidUsername)
  /\ utils.SanitizeUsername ascii_ToLower (str "bob smith")
     = ([], Some utils.ErrorInvalidUsername).
Proof.
  split; [|split].
  - refine (proj1 (proj1 (SanitizeUsername_spec ascii_ToLower)
                     (str "alice_01.x-y") _ _)); [vm_compute; lia|by vm_compute].
  - apply (proj2 (SanitizeUsername_spec ascii_ToLower) (str "  Al ")).
    left. vm_compute. lia.
  - apply (proj2 (SanitizeUsername_spec ascii_ToLower) (str "bob smith")).
    right. right. by vm_compute.
Defined.

(** ** C6: [SanitizeDisplayName] counts code points *)

(** C6.  With [t] the trimmed, normalised input whose white space runs are
    collapsed to single spaces, [SanitizeDisplayName] returns [t] and no error
    when [t] is not empty and has 3 to 32 runes, and fails with
    [ErrorInvalidDisplayName] in every other case; so it succeeds exactly in
    the first.  In particular a string of 32 runes, each of two bytes or more
    and none of them white space, that the normaliser leaves alone is
    accepted unchanged, although it is at least 64 bytes long. *)
Theorem SanitizeDisplayName_code_points (NFKC : gostring -> gostring) :
  (forall s : gostring,
      let t := strings.Join (strings.Fields (NFKC (strings.TrimSpace s))) (str " ") in
      let ok := t <> [] /\ (3 <= utf8.RuneCountInString t <= 32)%nat in
      (ok -> utils.SanitizeDisplayName NFKC s = (t, None))
      /\ (~ ok ->
          utils.SanitizeDisplayName NFKC s = ([], Some utils.ErrorInvalidDisplayName))
      /\ ((utils.SanitizeDisplayName NFKC s).2 = None <-> ok))
  /\ (forall w : gostring,
         utf8.RuneCountInString w = 32%nat ->
         Forall (fun x => strings.space_rune x = false /\ (2 <= length x.2)%nat)
                (utf8.runes w) ->
         NFKC w = w ->
         utils.SanitizeDisplayName NFKC w = (w, None) /\ (64 <= length w)%nat).
Proof.
  split.
  - intros s t ok.
    assert (Hyes : ok -> utils.SanitizeDisplayName NFKC s = (t, None)).
    { intros [Hne Hlen]. unfold utils.SanitizeDisplayName. fold t.
      rewrite bool_decide_eq_false_2 by done.
      destruct (_ || _) eqn:E; [|done]. bool_hyps; lia. }
    assert (Hno : ~ ok -> utils.SanitizeDisplayName NFKC s
                          = ([], Some utils.ErrorInvalidDisplayName)).
    { intros Hnot. unfold utils.SanitizeDisplayName. fold t.
      destruct (bool_decide (t = [])) eqn:Hd; [done|].
      apply bool_decide_eq_false in Hd.
      destruct (_ || _) eqn:E; [done|]. exfalso. apply Hnot.
      bool_hyps. split; [done|lia]. }
    split; [exact Hyes|]. split; [exact Hno|]. split.
    + intros Hnone. destruct (decide (t = [])) as [Ht|Ht].
      * rewrite Hno in Hnone; [discriminate|]. by intros [? _].
      * destruct (decide (3 <= utf8.RuneCountInString t <= 32)%nat) as [Hl|Hl];
          [done|].
        rewrite Hno in Hnone; [discriminate|]. by intros [_ ?].
    + intros Hok. by rewrite Hyes.
  - intros w Hcount Hall Hn.
    assert (Hw : word w).
    { split.
      - intros ->. discriminate Hcount.
      - eapply Forall_impl; [exact Hall|]. by intros x [? _]. }
    split.
    + pose proof (SanitizeDisplayName_joined NFKC [w]) as Hj.
      cbn [strings.Join] in Hj.
      apply Hj; [by constructor|done|by destruct Hw|lia].
    + rewrite <- (bytes_of_runes w). unfold utf8.RuneCountInString in Hcount.
      assert (Hlen : (2 * length (utf8.runes w)
                      <= length (utf8.bytes_of (utf8.runes w)))%nat).
      { clear Hcount. induction Hall as [|x l [_ Hx] _ IH]; [done|].
        rewrite bytes_of_cons, length_app. cbn [length]. lia. }
      lia.
Qed.

Lemma SanitizeDisplayName_code_points_witness :
  length ya32 = 64%nat
  /\ utf8.RuneCountInString ya32 = 32%nat
  /\ utils.SanitizeDisplayName NFKC_of_normalized ya32 = (ya32, None)
  /\ utils.SanitizeDisplayName NFKC_of_normalized (str "  a  b  ") = (str "a b", None)
  /\ utils.SanitizeDisplayName NFKC_of_normalized (str " ab ")
     = ([], Some utils.ErrorInvalidDisplayName).
Proof.
  split; [reflexivity|]. split; [by vm_compute|]. split; [|split].
  - refine (proj1 (proj2 (SanitizeDisplayName_code_points NFKC_of_normalized)
                     ya32 _ _ _)); [by vm_compute| |reflexivity].
    vm_compute. repeat constructor; lia.
  - apply (proj1 (proj1 (SanitizeDisplayName_code_points NFKC_of_normalized)
                    (str "  a  b  "))).
    split; [done|]. vm_compute. lia.
  - apply (proj1 (proj2 (proj1 (SanitizeDisplayName_code_points NFKC_of_normalized)
                           (str " ab ")))).
    intros [_ H]. vm_compute in H. lia.
Defined.

(** ** C7: [SanitizePhoneE164] *)

(** C7.  An absent number, or one that trims to the empty string, comes back
    absent with no error.  Otherwise, with [k] the bytes ['+'] and
    ['0' .. '9'] of the trimmed input in order, the call fails with
    [ErrorInvalidPhoneNumber] exactly when [k] is shorter than 7 or longer than
    20, and returns [k] when it is not. *)
Theorem SanitizePhoneE164_spec :
  utils.SanitizePhoneE164 None = (None, None)
  /\ (forall v : gostring,
         strings.TrimSpace v = [] ->
         utils.SanitizePhoneE164 (Some v) = (None, None))
  /\ (forall v : gostring,
         strings.TrimSpace v <> [] ->
         let k := List.filter plus_or_digit (strings.TrimSpace v) in
         (utils.SanitizePhoneE164 (Some v) = (None, Some utils.ErrorInvalidPhoneNumber)
          <-> (length k < 7)%nat \/ (20 < length k)%nat)
         /\ ((7 <= length k <= 20)%nat ->
             utils.SanitizePhoneE164 (Some v) = (Some k, None))).
Proof.
  split; [done|]. split.
  - intros v Hv. unfold utils.SanitizePhoneE164.
    by rewrite bool_decide_eq_true_2.
  - intros v Hv k. unfold utils.SanitizePhoneE164.
    rewrite bool_decide_eq_false_2 by done.
    rewrite keepPlusDigits_filter. fold k.
    destruct (_ || _) eqn:E; bool_hyps; (split; [split|]); intros;
      try done; try discriminate; try lia.
Qed.

Lemma SanitizePhoneE164_spec_witness :
  utils.SanitizePhoneE164 (Some (str "   ")) = (None, None)
  /\ utils.SanitizePhoneE164 (Some (str " +977 (98) 123-456 "))
     = (Some (str "+97798123456"), None)
  /\ utils.SanitizePhoneE164 (Some (str "12-34"))
     = (None, Some utils.ErrorInvalidPhoneNumber).
Proof.
  destruct SanitizePhoneE164_spec as (_ & Hempty & Hsome).
  split; [|split].
  - apply Hempty. by vm_compute.
  - refine (proj2 (Hsome (str " +977 (98) 123-456 ") _) _);
      [by vm_compute|vm_compute; lia].
  - refine (proj2 (proj1 (Hsome (str "12-34") _)) _);
      [by vm_compute|left; vm_compute; lia].
Defined.

(** ** C8: [SanitizeMessageContent] dereferences its argument *)

(** C8.  [SanitizeMessageContent nil] panics, the pointer being dereferenced
    unconditionally; for a pointer to a string the call returns a pointer to
    the trimmed, normalised and sanitised string. *)
Theorem SanitizeMessageContent_nil_panics
        (NFKC UGCPolicy_Sanitize : gostring -> gostring) :
  utils.SanitizeMessageContent NFKC UGCPolicy_Sanitize None = utils.Panics
  /\ forall v : gostring,
      utils.SanitizeMessageContent NFKC UGCPolicy_Sanitize (Some v)
      = utils.Returns (Some (UGCPolicy_Sanitize (NFKC (strings.TrimSpace v)))).
Proof. split; [reflexivity|]. intros v. reflexivity. Qed.

(** ** C9: [ValidateFileType] on a url without extension *)

(** C9.  The empty extension is not blocked and every string contains the
    empty string; so when the url has no extension, [ValidateFileType]
    returns the empty extension and no error, whatever type is declared. *)
Theorem ValidateFileType_no_extension :
  ([] ∉ utils.blockedExt)
  /\ (forall v : gostring, strings.Contains v [] = true)
  /\ (forall (unicode_ToLower : rune -> rune) (fileType : option gostring)
             (url : gostring),
         filepath.Ext url = [] ->
         utils.ValidateFileType unicode_ToLower fileType url = (Some [], None)).
Proof.
  assert (Hnil : [] ∉ utils.blockedExt).
  { apply (bool_decide_unpack _). by vm_compute. }
  split; [exact Hnil|]. split; [exact Contains_nil|].
  intros f fileType url Hext. unfold utils.ValidateFileType.
  rewrite Hext, ToLower_nil. rewrite bool_decide_eq_false_2 by done.
  destruct fileType as [v|]; [|done]. by rewrite Contains_nil.
Qed.

Lemma ValidateFileType_no_extension_witness :
  filepath.Ext (str "http://x.org/upload/file") = []
  /\ utils.ValidateFileType ascii_ToLower (Some (str "image/png"))
       (str "http://x.org/upload/file") = (Some [], None)
  /\ utils.ValidateFileType ascii_ToLower None (str "http://x.org/upload/file")
     = (Some [], None).
Proof.
  destruct ValidateFileType_no_extension as (_ & _ & H).
  split; [reflexivity|]. split; apply H; reflexivity.
Defined.

(** ** C10: [SanitizeColorFormat] keeps the case *)

(** C10.  A colour that is accepted is returned as the trimmed input, byte
    for byte: "#ABC" comes back as "#ABC". *)
Theorem SanitizeColorFormat_keeps_case :
  (forall v r : gostring,
      utils.SanitizeColorFormat (Some v) = (Some r, None) ->
      r = strings.TrimSpace v)
  /\ utils.SanitizeColorFormat (Some (str "#ABC")) = (Some (str "#ABC"), None).
Proof.
  split; [|by vm_compute].
  intros v r. unfold utils.SanitizeColorFormat.
  destruct (bool_decide _); [discriminate|].
  destruct (negb _); [discriminate|]. by intros [= <-].
Qed.

Lemma SanitizeColorFormat_keeps_case_witness :
  utils.SanitizeColorFormat (Some (str " #A1b2C3 ")) = (Some (str "#A1b2C3"), None)
  /\ str "#A1b2C3" = strings.TrimSpace (str " #A1b2C3 ").
Proof.
  assert (H : utils.SanitizeColorFormat (Some (str " #A1b2C3 "))
              = (Some (str "#A1b2C3"), None)) by (by vm_compute).
  split; [exact H|].
  exact (proj1 SanitizeColorFormat_keeps_case _ _ H).
Defined.

(** * Further properties of the sanitizers *)

(** X1.  An accepted username is accepted again, unchanged, whatever the Unicode
    case table: it is ASCII, has no upper case letter and no white space. *)
Theorem SanitizeUsername_idempotent (unicode_ToLower : rune -> rune)
        (s t : gostring) :
  utils.SanitizeUsername unicode_ToLower s = (t, None) ->
  utils.SanitizeUsername unicode_ToLower t = (t, None).
Proof.
  unfold utils.SanitizeUsername at 1.
  destruct (regexp.MatchString utils.usernameRegex _) eqn:Hm; [|discriminate].
  intros [= <-]. set (t := strings.ToLower _ _) in *.
  pose proof Hm as Hm'. apply MatchString_usernameRegex in Hm' as [Hlen Hcls].
  unfold utils.SanitizeUsername.
  assert (Hns : Forall (fun c => byteZ c < 0x80
                                 /\ unicode.IsSpace (byteZ c) = false) t).
  { apply forallb_Forall in Hcls. eapply Forall_impl; [exact Hcls|].
    apply username_byte_no_space. }
  rewrite (TrimSpace_no_space_bytes t Hns), ToLower_ascii.
  2:{ eapply Forall_impl; [exact Hns|]. by intros c [? _]. }
  by rewrite (lower_username_fixed t Hcls), Hm.
Qed.

Lemma SanitizeUsername_idempotent_witness :
  utils.SanitizeUsername ascii_ToLower (str "  Alice_01 ") = (str "alice_01", None)
  /\ utils.SanitizeUsername ascii_ToLower (str "alice_01") = (str "alice_01", None).
Proof.
  assert (H : utils.SanitizeUsername ascii_ToLower (str "  Alice_01 ")
              = (str "alice_01", None)) by (by vm_compute).
  split; [exact H|].
  exact (SanitizeUsername_idempotent ascii_ToLower _ _ H).
Defined.

(** X2.  An accepted hall name is accepted again, unchanged. *)
Theorem SanitizeHallname_idempotent (s t : gostring) :
  utils.SanitizeHallname s = (t, None) ->
  utils.SanitizeHallname t = (t, None).
Proof.
  unfold utils.SanitizeHallname at 1.
  destruct (regexp.MatchString utils.hallNameRegex _) eqn:Hm; [|discriminate].
  intros [= <-]. unfold utils.SanitizeHallname.
  by rewrite TrimSpace_idempotent, Hm.
Qed.

Lemma SanitizeHallname_idempotent_witness :
  utils.SanitizeHallname (str "  Main Hall-2 ") = (str "Main Hall-2", None)
  /\ utils.SanitizeHallname (str "Main Hall-2") = (str "Main Hall-2", None).
Proof.
  assert (H : utils.SanitizeHallname (str "  Main Hall-2 ")
              = (str "Main Hall-2", None)) by (by vm_compute).
  split; [exact H|]. exact (SanitizeHallname_idempotent _ _ H).
Defined.

(** X3.  An accepted colour is accepted again, unchanged. *)
Theorem SanitizeColorFormat_idempotent (colorHex : option gostring)
        (t : gostring) :
  utils.SanitizeColorFormat colorHex = (Some t, None) ->
  utils.SanitizeColorFormat (Some t) = (Some t, None).
Proof.
  unfold utils.SanitizeColorFormat at 1.
  destruct colorHex as [v|]; [|discriminate].
  destruct (bool_decide (strings.TrimSpace v = [])) eqn:He; [discriminate|].
  destruct (regexp.MatchString utils.hexRegex _) eqn:Hm; [|discriminate].
  intros [= <-]. unfold utils.SanitizeColorFormat.
  by rewrite TrimSpace_idempotent, He, Hm.
Qed.

Lemma SanitizeColorFormat_idempotent_witness :
  utils.SanitizeColorFormat (Some (str " #aabbcc ")) = (Some (str "#aabbcc"), None)
  /\ utils.SanitizeColorFormat (Some (str "#aabbcc")) = (Some (str "#aabbcc"), None).
Proof.
  assert (H : utils.SanitizeColorFormat (Some (str " #aabbcc "))
              = (Some (str "#aabbcc"), None)) by (by vm_compute).
  split; [exact H|]. exact (SanitizeColorFormat_idempotent _ _ H).
Defined.

(** X4.  An accepted phone number is accepted again, unchanged. *)
Theorem SanitizePhoneE164_idempotent (ptr : option gostring) (k : gostring) :
  utils.SanitizePhoneE164 ptr = (Some k, None) ->
  utils.SanitizePhoneE164 (Some k) = (Some k, None).
Proof.
  unfold utils.SanitizePhoneE164 at 1.
  destruct ptr as [v|]; [|discriminate].
  destruct (bool_decide (strings.TrimSpace v = [])); [discriminate|].
  rewrite keepPlusDigits_filter.
  set (k0 := List.filter plus_or_digit (strings.TrimSpace v)).
  destruct (_ || _) eqn:Hlen; [discriminate|]. intros [= <-].
  assert (Hall : Forall (fun c => plus_or_digit c = true) k0).
  { apply Forall_forall. intros c Hc. apply list_elem_of_In in Hc.
    by apply List.filter_In in Hc as [_ ?]. }
  assert (Hfix : List.filter plus_or_digit k0 = k0).
  { clear Hlen. induction Hall as [|c l Hc _ IH]; [done|].
    cbn. by rewrite Hc, IH. }
  unfold utils.SanitizePhoneE164.
  rewrite TrimSpace_no_space_bytes.
  2:{ eapply Forall_impl; [exact Hall|]. apply plus_or_digit_no_space. }
  rewrite keepPlusDigits_filter, Hfix, Hlen.
  rewrite bool_decide_eq_false_2; [done|].
  intros E. rewrite E in Hlen. cbn in Hlen. discriminate.
Qed.

Lemma SanitizePhoneE164_idempotent_witness :
  utils.SanitizePhoneE164 (Some (str " +977 (98) 123-456 "))
  = (Some (str "+97798123456"), None)
  /\ utils.SanitizePhoneE164 (Some (str "+97798123456"))
     = (Some (str "+97798123456"), None).
Proof.
  assert (H : utils.SanitizePhoneE164 (Some (str " +977 (98) 123-456 "))
              = (Some (str "+97798123456"), None)) by (by vm_compute).
  split; [exact H|]. exact (SanitizePhoneE164_idempotent _ _ H).
Defined.

(** A blocked extension is refused before the declared type is looked at. *)
Lemma ValidateFileType_blocked (unicode_ToLower : rune -> rune)
        (fileType : option gostring) (url : gostring) :
  strings.ToLower unicode_ToLower (filepath.Ext url) ∈ utils.blockedExt ->
  utils.ValidateFileType unicode_ToLower fileType url
  = (None, Some utils.ErrorBadFileType).
Proof.
  intros H. unfold utils.ValidateFileType. by rewrite bool_decide_eq_true_2.
Qed.

(** X7.  An accepted display name is made of fields without white space, joined
    by single spaces: it neither starts nor ends with white space. *)
Theorem SanitizeDisplayName_shape (NFKC : gostring -> gostring) (s t : gostring) :
  utils.SanitizeDisplayName NFKC s = (t, None) ->
  (exists F, Forall word F /\ t = strings.Join F (str " "))
  /\ leading_space t = false /\ trailing_space t = false
  /\ strings.TrimSpace t = t.
Proof.
  intros Hok. apply SanitizeDisplayName_ok in Hok as (-> & _ & _).
  pose proof (Fields_words (NFKC (strings.TrimSpace s))) as HF.
  destruct (Join_edges _ HF) as [Hl Ht].
  split; [by eexists|]. split; [done|]. split; [done|].
  by apply TrimSpace_Join.
Qed.

Lemma SanitizeDisplayName_shape_witness :
  utils.SanitizeDisplayName NFKC_of_normalized (str " Ann   Lee ") = (str "Ann Lee", None)
  /\ strings.TrimSpace (str "Ann Lee") = str "Ann Lee".
Proof.
  assert (H : utils.SanitizeDisplayName NFKC_of_normalized (str " Ann   Lee ")
              = (str "Ann Lee", None)) by (by vm_compute).
  split; [exact H|].
  exact (proj2 (proj2 (proj2 (SanitizeDisplayName_shape NFKC_of_normalized _ _ H)))).
Defined.

(** * Facts about what a pattern reads *)

Lemma iter_match_reads (P : rune -> Prop) (step : regexp.config -> list regexp.config) :
  (forall c c', In c' (step c) -> exists w, c.2 = w ++ c'.2 /\ Forall P w) ->
  forall k c c',
    In c' (regexp.iter_match step k c) ->
    exists w, c.2 = w ++ c'.2 /\ Forall P w.
Proof.
  intros Hstep. induction k as [|k IH]; intros c c' Hin.
  - destruct Hin as [<-|[]]. by exists [].
  - cbn in Hin. apply in_concat in Hin as (l & Hl & Hin).
    apply in_map_iff in Hl as (m & <- & Hm).
    destruct (Hstep _ _ Hm) as (w1 & E1 & H1).
    destruct (IH _ _ Hin) as (w2 & E2 & H2).
    exists (w1 ++ w2). split; [by rewrite E1, E2, app_assoc|].
    by apply Forall_app.
Qed.

(** A match reads a stretch of the text made of runes of the pattern's
    alphabet, and leaves the rest. *)
Lemma run_reads (re : regexp.Regexp) (c c' : regexp.config) :
  In c' (regexp.run re c) ->
  exists w, c.2 = w ++ c'.2 /\ Forall (fun r => alphabet re r = true) w.
Proof.
  revert c c'. induction re as [| |x|ranges|a IHa b IHb|lo hi sub IH|sub IH|sub IH|sub IH];
    intros c c' Hin; cbn [regexp.run alphabet] in *.
  - destruct (c.1); [|destruct Hin]. destruct Hin as [<-|[]]. by exists [].
  - destruct (c.2) eqn:E; [|destruct Hin]. destruct Hin as [<-|[]].
    exists []. by rewrite E.
  - destruct (c.2) as [|r rest]; [destruct Hin|].
    destruct (r =? x) eqn:E; [|destruct Hin]. destruct Hin as [<-|[]].
    exists [r]. split; [done|]. by repeat constructor.
  - destruct (c.2) as [|r rest]; [destruct Hin|].
    destruct (regexp.in_class ranges r) eqn:E; [|destruct Hin].
    destruct Hin as [<-|[]]. exists [r]. split; [done|]. by repeat constructor.
  - apply in_concat in Hin as (l & Hl & Hin).
    apply in_map_iff in Hl as (m & <- & Hm).
    destruct (IHa _ _ Hm) as (w1 & E1 & H1).
    destruct (IHb _ _ Hin) as (w2 & E2 & H2).
    exists (w1 ++ w2). split; [by rewrite E1, E2, app_assoc|].
    apply Forall_app. split.
    + eapply Forall_impl; [exact H1|]. cbn. by intros r ->.
    + eapply Forall_impl; [exact H2|]. cbn. intros r ->. apply orb_true_r.
  - apply in_concat in Hin as (l & Hl & Hin).
    apply in_map_iff in Hl as (k & <- & _).
    by apply (iter_match_reads _ _ IH) in Hin.
  - apply in_concat in Hin as (l & Hl & Hin).
    apply in_map_iff in Hl as (k & <- & _).
    by apply (iter_match_reads _ _ IH) in Hin.
  - apply in_concat in Hin as (l & Hl & Hin).
    apply in_map_iff in Hl as (k & <- & _).
    by apply (iter_match_reads _ _ IH) in Hin.
  - destruct Hin as [<-|Hin]; [by exists []|]. by apply IH.
Qed.

Lemma run_ends (re : regexp.Regexp) (c c' : regexp.config) :
  ends_anchored re = true -> In c' (regexp.run re c) -> c'.2 = [].
Proof.
  revert c c'. induction re as [| |x|ranges|a IHa b IHb|lo hi sub IH|sub IH|sub IH|sub IH];
    intros c c' He Hin; try discriminate He; cbn [regexp.run ends_anchored] in *.
  - destruct (c.2) eqn:E; [|destruct Hin]. destruct Hin as [<-|[]]. done.
  - apply in_concat in Hin as (l & Hl & Hin).
    apply in_map_iff in Hl as (m & <- & Hm). by apply (IHb m).
Qed.

(** A pattern between [^] and [$] only matches texts made of runes of its
    alphabet, and matches them whole. *)
Lemma search_anchored_reads (body : regexp.Regexp) (rs : list rune) :
  ends_anchored body = true ->
  regexp.search (regexp.OpConcat regexp.OpBeginText body) true rs = true ->
  In (false, []) (regexp.run body (true, rs))
  \/ In (true, []) (regexp.run body (true, rs)).
Proof.
  intros He. set (re := regexp.OpConcat _ _).
  assert (Hmid : forall text, regexp.search re false text = false).
  { induction text as [|r text IH]; cbn; [done|]. exact IH. }
  assert (Hhead : regexp.search re true rs = regexp.matches_at re (true, rs)).
  { destruct rs as [|r rest]; cbn [regexp.search].
    - by rewrite orb_false_r.
    - by rewrite Hmid, orb_false_r. }
  rewrite Hhead, matches_at_true. unfold re. cbn [regexp.run fst map concat].
  rewrite app_nil_r. intros ([b rest] & Hin).
  pose proof (run_ends _ _ _ He Hin) as E. cbn in E. subst rest.
  destruct b; [by right|by left].
Qed.

Lemma MatchString_anchored_alphabet (body : regexp.Regexp) (s : gostring) :
  ends_anchored body = true ->
  regexp.MatchString (regexp.OpConcat regexp.OpBeginText body) s = true ->
  Forall (fun x : rune * gostring => alphabet body x.1 = true) (utf8.runes s).
Proof.
  intros He Hm. unfold regexp.MatchString in Hm.
  apply search_anchored_reads in Hm; [|done].
  assert (exists c', In c' (regexp.run body (true, map fst (utf8.runes s)))
                     /\ c'.2 = []) as (c' & Hin & E).
  { destruct Hm; eexists; split; try eassumption; done. }
  apply run_reads in Hin as (w & Hw & Hall). rewrite E, app_nil_r in Hw.
  cbn in Hw. subst w. by rewrite Forall_map in Hall.
Qed.

(** When the alphabet is ASCII, what matches is an ASCII string whose bytes
    are in the alphabet. *)
Lemma MatchString_anchored_bytes (body : regexp.Regexp) (s : gostring) :
  ends_anchored body = true ->
  (forall r, alphabet body r = true -> r < 0x80) ->
  regexp.MatchString (regexp.OpConcat regexp.OpBeginText body) s = true ->
  Forall (fun c => byteZ c < 0x80 /\ alphabet body (byteZ c) = true) s.
Proof.
  intros He Hascii Hm.
  pose proof (MatchString_anchored_alphabet body s He Hm) as Hall.
  assert (Hs : Forall (fun c => byteZ c < 0x80) s).
  { apply runes_all_ascii. eapply Forall_impl; [exact Hall|].
    intros x Hx. by apply Hascii. }
  rewrite (runes_ascii s Hs), Forall_map in Hall.
  rewrite Forall_forall in Hs, Hall. apply Forall_forall. intros c Hc.
  split; [by apply Hs|by apply Hall].
Qed.

(** * Facts about the UTF-8 encoder and [strings.Map] *)

Lemma byteZ_byte_of (x : Z) : byteZ (byte_of x) = x mod 256.
Proof.
  unfold byteZ, byte_of. rewrite N_ascii_embedding.
  - rewrite Z2N.id; [done|]. Z.div_mod_to_equations. lia.
  - apply N2Z.inj_lt. rewrite Z2N.id; Z.div_mod_to_equations; lia.
Qed.

Lemma Zlor_le_add (a b : Z) : 0 <= a -> 0 <= b -> Z.lor a b <= a + b.
Proof.
  intros Ha Hb. pose proof (Z.add_lor_land a b).
  assert (0 <= Z.land a b) by (apply Z.land_nonneg; lia). lia.
Qed.

Lemma byte_of_lor_high (t v : Z) :
  0x80 <= t -> 0 <= v -> t + v < 256 -> 0x80 <= byteZ (byte_of (Z.lor t v)).
Proof.
  intros Ht Hv Hsum. rewrite byteZ_byte_of.
  pose proof (Zlor_ge_l t v ltac:(lia) Hv). pose proof (Zlor_le_add t v ltac:(lia) Hv).
  rewrite Z.mod_small; lia.
Qed.

Lemma land_maskx_range (x : Z) : 0 <= Z.land x utf8.maskx < 64.
Proof.
  change utf8.maskx with (Z.ones 6). rewrite Z.land_ones by lia. pow2.
  Z.div_mod_to_equations. lia.
Qed.

(** A rune that is not ASCII is encoded with bytes that are not ASCII. *)
Lemma EncodeRune_high (r : rune) :
  ~ (0 <= r <= 0x7F) ->
  Forall (fun c => 0x80 <= byteZ c) (utf8.EncodeRune r).
Proof.
  intros Hr. unfold utf8.EncodeRune.
  assert (Hcont : forall x, 0x80 <= byteZ (byte_of (Z.lor utf8.tx (Z.land x utf8.maskx)))).
  { intros x. pose proof (land_maskx_range x).
    apply byte_of_lor_high; unfold utf8.tx; lia. }
  assert (Hshift : forall x k n, 0 <= x -> 0 <= k -> x < n * 2 ^ k ->
                                 0 <= Z.shiftr x k < n).
  { intros x k n Hx Hk Hlt. rewrite Z.shiftr_div_pow2 by done.
    assert (0 < 2 ^ k) by (apply Z.pow_pos_nonneg; lia).
    split; [apply Z.div_pos; lia|]. apply Z.div_lt_upper_bound; lia. }
  unfold utf8.rune1Max, utf8.rune2Max, utf8.rune3Max, utf8.MaxRune,
    utf8.surrogateMin, utf8.surrogateMax, utf8.RuneError.
  destruct ((0 <=? r) && (r <=? 127)) eqn:E1; [bool_hyps; lia|].
  destruct ((0 <=? r) && (r <=? 2047)) eqn:E2.
  { apply andb_true_iff in E2 as [H0 H1]. apply Z.leb_le in H0, H1.
    pose proof (Hshift r 6 32 ltac:(lia) ltac:(lia) ltac:(pow2; lia)).
    repeat constructor; [|apply Hcont].
    apply byte_of_lor_high; unfold utf8.t2; lia. }
  destruct ((r <? 0) || (1114111 <? r) || ((55296 <=? r) && (r <=? 57343))) eqn:E3.
  { repeat constructor; by vm_compute. }
  assert (0 <= r <= 1114111) as Hrange by (bool_hyps; lia).
  destruct (r <=? 65535) eqn:E4.
  - apply Z.leb_le in E4.
    pose proof (Hshift r 12 16 ltac:(lia) ltac:(lia) ltac:(pow2; lia)).
    repeat constructor; try apply Hcont.
    apply byte_of_lor_high; unfold utf8.t3; lia.
  - apply Z.leb_gt in E4.
    pose proof (Hshift r 18 5 ltac:(lia) ltac:(lia) ltac:(pow2; lia)).
    repeat constructor; try apply Hcont.
    apply byte_of_lor_high; unfold utf8.t4; lia.
Qed.

(** An ASCII byte in the encoding of a rune is the rune itself. *)
Lemma EncodeRune_ascii_byte (r : rune) (c : ascii) :
  In c (utf8.EncodeRune r) -> byteZ c < 0x80 -> byteZ c = r.
Proof.
  intros Hin Hc. destruct (decide (0 <= r <= 0x7F)) as [Hr|Hr].
  - unfold utf8.EncodeRune in Hin.
    assert ((0 <=? r) && (r <=? utf8.rune1Max) = true) as E.
    { apply andb_true_iff. split; [apply Z.leb_le|apply Z.leb_le]; unfold utf8.rune1Max; lia. }
    rewrite E in Hin. destruct Hin as [<-|[]].
    rewrite byteZ_byte_of, Z.mod_small; lia.
  - pose proof (EncodeRune_high r Hr) as Hall.
    rewrite Forall_forall in Hall. apply list_elem_of_In in Hin.
    specialize (Hall c Hin). lia.
Qed.

(** [strings.Map] writes the encodings of the images one after the other. *)
Lemma Map_concat (mapping : rune -> rune) (s : gostring) :
  strings.Map mapping s
  = concat (map (fun x : rune * gostring =>
                   if 0 <=? mapping x.1 then utf8.EncodeRune (mapping x.1) else [])
                (utf8.runes s)).
Proof.
  unfold strings.Map. generalize (utf8.runes s). intros rs.
  set (step := fun (b : gostring) (x : rune * gostring) => _).
  assert (Hfold : forall rs b, fold_left step rs b = b ++ fold_left step rs []).
  { induction rs0 as [|x rs0 IH]; intros b; cbn [fold_left].
    - by rewrite app_nil_r.
    - rewrite (IH (step b x)), (IH (step [] x)), app_assoc. f_equal.
      unfold step, strings.WriteRune. by destruct (_ <=? _); rewrite ?app_nil_r. }
  induction rs as [|x rs IH]; [done|].
  cbn [fold_left map concat]. rewrite Hfold, IH. f_equal.
Qed.

Lemma lower_byte_not_upper (c : ascii) :
  strings.is_upper_ascii (strings.lower_byte c) = false.
Proof. destruct c as [[] [] [] [] [] [] [] []]; reflexivity. Qed.

Lemma is_upper_ascii_rune (c : ascii) :
  strings.is_upper_ascii c = upper_rune (byteZ c).
Proof. reflexivity. Qed.

(** When the case table never yields an ASCII upper case letter, a lower-cased
    string that is ASCII has no upper case letter. *)
Lemma ToLower_no_upper (f : rune -> rune) (x : gostring) :
  (forall r, upper_rune (f r) = false) ->
  Forall (fun c => byteZ c < 0x80) (strings.ToLower f x) ->
  Forall (fun c => strings.is_upper_ascii c = false) (strings.ToLower f x).
Proof.
  intros Hf. unfold strings.ToLower.
  destruct (forallb _ x) eqn:Hascii.
  - destruct (existsb strings.is_upper_ascii x) eqn:Hup; cbn [negb]; intros _.
    + rewrite Forall_map. apply Forall_forall. intros c _.
      apply lower_byte_not_upper.
    + apply Forall_forall. intros c Hc. apply list_elem_of_In in Hc.
      destruct (strings.is_upper_ascii c) eqn:E; [|done].
      assert (existsb strings.is_upper_ascii x = true); [|congruence].
      apply existsb_exists. by exists c.
  - rewrite Map_concat. intros Hall. apply Forall_forall. intros c Hc.
    rewrite Forall_forall in Hall. specialize (Hall c Hc).
    apply list_elem_of_In, in_concat in Hc as (l & Hl & Hc).
    apply in_map_iff in Hl as (p & <- & _).
    destruct (0 <=? f p.1); [|destruct Hc].
    rewrite is_upper_ascii_rune, (EncodeRune_ascii_byte _ _ Hc Hall). apply Hf.
Qed.

(** * Facts about [emailRegex] *)

Lemma In_run_concat (a b : regexp.Regexp) (c c' : regexp.config) :
  In c' (regexp.run (regexp.OpConcat a b) c)
  <-> exists m, In m (regexp.run a c) /\ In c' (regexp.run b m).
Proof.
  cbn [regexp.run]. rewrite in_concat. split.
  - intros (l & Hl & Hin). apply in_map_iff in Hl as (m & <- & Hm). eauto.
  - intros (m & Hm & Hin). exists (regexp.run b m). split; [|done].
    apply in_map_iff. eauto.
Qed.

Lemma emailRegex_bytes (c : ascii) :
  alphabet utils.emailRegex (byteZ c) = true ->
  plain_byte c.
Proof.
  destruct c as [[] [] [] [] [] [] [] []]; vm_compute; intros H;
    try discriminate H; split; reflexivity.
Qed.

Lemma emailRegex_alphabet_ascii (r : rune) :
  alphabet utils.emailRegex r = true -> r < 0x80.
Proof.
  intros Hr. cbn in Hr. bool_hyps; rune_lits; lia.
Qed.

Lemma emailRegex_parts :
  utils.emailRegex
  = regexp.OpConcat regexp.OpBeginText
      (regexp.OpConcat email_local
         (regexp.OpConcat (regexp.OpLiteral (rune_lit "@")) email_domain)).
Proof. reflexivity. Qed.

(** A text the pattern matches has an at sign with a non-empty local part
    before it and a non-empty domain after it. *)
Lemma emailRegex_split (rs : list rune) :
  regexp.search utils.emailRegex true rs = true ->
  exists k rest,
    (1 <= k)%nat
    /\ drop k rs = rune_lit "@" :: rest
    /\ rest <> []
    /\ Forall (fun r => alphabet email_local r = true) (take k rs)
    /\ Forall (fun r => alphabet email_domain r = true) rest.
Proof.
  rewrite emailRegex_parts. intros Hm.
  apply search_anchored_reads in Hm; [|done].
  assert (exists c', In c' (regexp.run
                              (regexp.OpConcat email_local
                                 (regexp.OpConcat (regexp.OpLiteral (rune_lit "@"))
                                    email_domain)) (true, rs))
                     /\ c'.2 = []) as (c' & Hin & Hend).
  { destruct Hm; eexists; split; try eassumption; done. }
  apply In_run_concat in Hin as (m1 & Hm1 & Hin).
  unfold email_local in Hm1 at 1. cbn [regexp.run snd] in Hm1.
  apply in_concat in Hm1 as (l & Hl & Hm1).
  apply in_map_iff in Hl as (k & <- & Hk). apply in_seq in Hk.
  apply iter_match_class in Hm1 as (Hlen & Hall & ->).
  apply In_run_concat in Hin as (m2 & Hm2 & Hin).
  cbn [regexp.run snd] in Hm2.
  destruct (drop k rs) as [|r rest] eqn:Hd; [destruct Hm2|].
  destruct (r =? rune_lit "@") eqn:Hr; [|destruct Hm2].
  destruct Hm2 as [<-|[]]. apply Z.eqb_eq in Hr. subst r.
  exists k, rest. split; [lia|]. split; [done|].
  pose proof (run_reads _ _ _ Hin) as (w & Hw & Hdom).
  rewrite Hend, app_nil_r in Hw. cbn in Hw. subst w.
  split; [|split; [|done]].
  - intros ->. unfold email_domain in Hin.
    apply In_run_concat in Hin as (m3 & Hm3 & _).
    unfold utils.emailLabel in Hm3.
    apply In_run_concat in Hm3 as (m4 & Hm4 & _). destruct Hm4.
  - apply forallb_Forall in Hall. exact Hall.
Qed.

Lemma SanitizeEmail_ok (f : rune -> rune) (s t : gostring) :
  utils.SanitizeEmail f s = (t, None) ->
  t = strings.ToLower f (strings.TrimSpace s)
  /\ (6 <= length t <= 254)%nat
  /\ strings.Contains t (str "@") = true
  /\ regexp.MatchString utils.emailRegex t = true.
Proof.
  unfold utils.SanitizeEmail. set (t0 := strings.ToLower _ _).
  destruct (_ || _) eqn:E; [discriminate|]. intros [= <-].
  bool_hyps. repeat split; try done; lia.
Qed.

Lemma emailRegex_plain (t : gostring) :
  regexp.MatchString utils.emailRegex t = true -> Forall plain_byte t.
Proof.
  rewrite emailRegex_parts. intros Hm.
  apply MatchString_anchored_bytes in Hm; [|done|].
  - eapply Forall_impl; [exact Hm|]. intros c [_ Hc].
    by apply emailRegex_bytes.
  - intros r Hr. by apply emailRegex_alphabet_ascii.
Qed.

(** X8.  An email [SanitizeEmail] accepts has 6 to 254 bytes, all of them
    ASCII and none white space, and exactly one at sign, with a non-empty
    local part before it and a non-empty domain after it. *)
Theorem SanitizeEmail_accepted_form (unicode_ToLower : rune -> rune)
        (s t : gostring) :
  utils.SanitizeEmail unicode_ToLower s = (t, None) ->
  Forall plain_byte t
  /\ (6 <= length t <= 254)%nat
  /\ exists loc dom : gostring,
      t = loc ++ "@"%char :: dom
      /\ loc <> [] /\ dom <> []
      /\ ~ In "@"%char loc /\ ~ In "@"%char dom.
Proof.
  intros Hok. apply SanitizeEmail_ok in Hok as (_ & Hlen & _ & Hm).
  pose proof (emailRegex_plain t Hm) as Hplain.
  split; [done|]. split; [done|].
  assert (Hascii : Forall (fun c => byteZ c < 0x80) t).
  { eapply Forall_impl; [exact Hplain|]. by intros c [? _]. }
  unfold regexp.MatchString in Hm.
  rewrite (runes_ascii t Hascii), map_fst_ascii_piece in Hm.
  apply emailRegex_split in Hm as (k & rest & Hk & Hd & Hrest & Hloc & Hdom).
  rewrite skipn_map in Hd. rewrite firstn_map in Hloc.
  destruct (drop k t) as [|c dom] eqn:Ht; [discriminate|].
  cbn [map] in Hd. injection Hd as Hc Hd.
  apply (byteZ_inj c "@") in Hc. subst c rest.
  exists (take k t), dom. split; [by rewrite <- Ht, take_drop|].
  split.
  { intros E. assert (length (take k t) = 0%nat) as Hz by (by rewrite E).
    assert (length (drop k t) = S (length dom)) as Hz' by (by rewrite Ht).
    rewrite length_take in Hz. rewrite length_drop in Hz'. lia. }
  split; [by destruct dom|].
  split; intros Hin.
  - rewrite Forall_map, Forall_forall in Hloc.
    apply list_elem_of_In in Hin. specialize (Hloc _ Hin). discriminate Hloc.
  - rewrite Forall_map, Forall_forall in Hdom.
    apply list_elem_of_In in Hin. specialize (Hdom _ Hin). discriminate Hdom.
Qed.

Lemma SanitizeEmail_accepted_form_witness :
  utils.SanitizeEmail ascii_ToLower (str " Ann.Lee+yapp@Mail.Example.org ")
  = (str "ann.lee+yapp@mail.example.org", None)
  /\ Forall plain_byte (str "ann.lee+yapp@mail.example.org").
Proof.
  assert (H : utils.SanitizeEmail ascii_ToLower
                (str " Ann.Lee+yapp@Mail.Example.org ")
              = (str "ann.lee+yapp@mail.example.org", None)) by (by vm_compute).
  split; [exact H|].
  exact (proj1 (SanitizeEmail_accepted_form ascii_ToLower _ _ H)).
Defined.

(** X9.  When the case table never yields an ASCII upper case letter (as
    [unicode.ToLower] does not), an accepted email is accepted again,
    unchanged. *)
Theorem SanitizeEmail_idempotent (unicode_ToLower : rune -> rune) :
  (forall r, upper_rune (unicode_ToLower r) = false) ->
  forall s t : gostring,
    utils.SanitizeEmail unicode_ToLower s = (t, None) ->
    utils.SanitizeEmail unicode_ToLower t = (t, None).
Proof.
  intros Hf s t Hok.
  apply SanitizeEmail_ok in Hok as (Ht & Hlen & Hat & Hm).
  pose proof (emailRegex_plain t Hm) as Hplain.
  assert (Hascii : Forall (fun c => byteZ c < 0x80) t).
  { eapply Forall_impl; [exact Hplain|]. by intros c [? _]. }
  assert (Hlow : map strings.lower_byte t = t).
  { assert (Hnu : Forall (fun c => strings.is_upper_ascii c = false) t).
    { rewrite Ht. apply ToLower_no_upper; [done|]. by rewrite <- Ht. }
    clear -Hnu. induction Hnu as [|c l Hc _ IH]; [done|].
    cbn. by rewrite IH, lower_byte_fixed. }
  unfold utils.SanitizeEmail.
  rewrite (TrimSpace_no_space_bytes t Hplain), (ToLower_ascii _ t Hascii), Hlow.
  rewrite Hat, Hm.
  destruct (_ || _) eqn:E; [|done]. bool_hyps; try discriminate; lia.
Qed.

Lemma SanitizeEmail_idempotent_witness :
  utils.SanitizeEmail ascii_ToLower (str "  USER@EXAMPLE.COM  ")
  = (str "user@example.com", None)
  /\ utils.SanitizeEmail ascii_ToLower (str "user@example.com")
     = (str "user@example.com", None).
Proof.
  assert (Hf : forall r, upper_rune (ascii_ToLower r) = false).
  { intros r. unfold upper_rune, ascii_ToLower.
    change (rune_lit "A") with 65. change (rune_lit "Z") with 90.
    change (rune_lit "a") with 97.
    destruct ((65 <=? r) && (r <=? 90)) eqn:E; [|exact E].
    bool_hyps. apply andb_false_iff. right. apply Z.leb_gt. lia. }
  assert (H : utils.SanitizeEmail ascii_ToLower (str "  USER@EXAMPLE.COM  ")
              = (str "user@example.com", None)) by (by vm_compute).
  split; [exact H|].
  exact (SanitizeEmail_idempotent ascii_ToLower Hf _ _ H).
Defined.

(** * Facts about [hallNameRegex] and [hexRegex] *)

(** What [hallNameRegex] accepts. *)
Lemma MatchString_hallNameRegex (s : gostring) :
  regexp.MatchString utils.hallNameRegex s = true
  <-> (3 <= length s <= 32)%nat /\ forallb hallname_byte s = true.
Proof.
  apply MatchString_anchored_class.
  - intros r Hr. cbn in Hr. bool_hyps; rune_lits; lia.
  - intros c. destruct c as [[] [] [] [] [] [] [] []]; reflexivity.
Qed.

Lemma hallname_byte_ascii (c : ascii) : hallname_byte c = true -> byteZ c < 0x80.
Proof.
  destruct c as [[] [] [] [] [] [] [] []]; vm_compute; intros H;
    try discriminate H; reflexivity.
Qed.

Lemma In_iter_match_S (step : regexp.config -> list regexp.config) (k : nat)
      (c c' : regexp.config) :
  In c' (regexp.iter_match step (S k) c)
  <-> exists m, In m (step c) /\ In c' (regexp.iter_match step k m).
Proof.
  cbn [regexp.iter_match]. rewrite in_concat. split.
  - intros (l & Hl & Hin). apply in_map_iff in Hl as (m & <- & Hm). eauto.
  - intros (m & Hm & Hin). eexists. split; [|exact Hin].
    apply in_map_iff. eauto.
Qed.

Lemma In_run_repeat (lo hi : nat) (sub : regexp.Regexp) (c c' : regexp.config) :
  In c' (regexp.run (regexp.OpRepeat lo hi sub) c)
  <-> exists k, (lo <= k < lo + (hi + 1 - lo))%nat
                /\ In c' (regexp.iter_match (regexp.run sub) k c).
Proof.
  cbn [regexp.run]. rewrite in_concat. split.
  - intros (l & Hl & Hin). apply in_map_iff in Hl as (k & <- & Hk).
    apply in_seq in Hk. eauto.
  - intros (k & Hk & Hin). eexists. split; [|exact Hin].
    apply in_map_iff. exists k. split; [done|]. by apply in_seq.
Qed.

(** A group [(?:[class]{3})] reads exactly three runes of the class. *)
Lemma run_three (cls : list (rune * rune)) (b : bool) (rs : list rune)
      (c' : regexp.config) :
  In c' (regexp.run (regexp.OpRepeat 3 3 (regexp.OpCharClass cls)) (b, rs))
  <-> (3 <= length rs)%nat
      /\ forallb (regexp.in_class cls) (take 3 rs) = true
      /\ c' = (false, drop 3 rs).
Proof.
  rewrite <- (iter_match_class cls 3 b rs c').
  cbn [regexp.run Nat.add Nat.sub seq map concat]. by rewrite app_nil_r.
Qed.

(** One or two such groups read three or six runes of the class. *)
Lemma run_three_once_or_twice (cls : list (rune * rune)) (b : bool)
      (h : list rune) (c' : regexp.config) :
  In c' (regexp.run
           (regexp.OpRepeat 1 2 (regexp.OpRepeat 3 3 (regexp.OpCharClass cls)))
           (b, h))
  <-> ((3 <= length h)%nat
       /\ forallb (regexp.in_class cls) (take 3 h) = true
       /\ c' = (false, drop 3 h))
      \/ ((6 <= length h)%nat
          /\ forallb (regexp.in_class cls) (take 6 h) = true
          /\ c' = (false, drop 6 h)).
Proof.
  rewrite In_run_repeat. split.
  - intros (k & Hk & Hin).
    assert (k = 1%nat \/ k = 2%nat) as [->| ->] by lia.
    + apply In_iter_match_S in Hin as (m & Hm & Hin).
      destruct Hin as [<-|[]]. left. by apply run_three in Hm.
    + apply In_iter_match_S in Hin as (m & Hm & Hin).
      apply In_iter_match_S in Hin as (m' & Hm' & Hin).
      destruct Hin as [<-|[]].
      apply run_three in Hm as (Hlen & Hall & ->).
      apply run_three in Hm' as (Hlen' & Hall' & ->).
      rewrite length_drop in Hlen'. rewrite drop_drop. right.
      split; [lia|]. split; [|done].
      change 6%nat with (3 + 3)%nat.
      by rewrite <- take_take_drop, forallb_app, Hall, Hall'.
  - intros [(Hlen & Hall & ->)|(Hlen & Hall & ->)].
    + exists 1%nat. split; [lia|]. apply In_iter_match_S.
      exists (false, drop 3 h). split; [by apply run_three|by left].
    + change 6%nat with (3 + 3)%nat in Hall.
      rewrite <- take_take_drop, forallb_app in Hall.
      apply andb_true_iff in Hall as [Hall Hall'].
      exists 2%nat. split; [lia|]. apply In_iter_match_S.
      exists (false, drop 3 h).
      split; [apply run_three; split; [lia|done]|].
      apply In_iter_match_S. exists (false, drop 3 (drop 3 h)).
      split; [|rewrite drop_drop; by left].
      apply run_three. rewrite length_drop. split; [lia|done].
Qed.

(** The text [hexRegex] matches: a number sign and three or six runes of
    the class. *)
Lemma search_hexRegex (rs : list rune) :
  regexp.search utils.hexRegex true rs = true
  <-> exists h,
      rs = rune_lit "#" :: h
      /\ (length h = 3%nat \/ length h = 6%nat)
      /\ forallb (regexp.in_class
                    [regexp.range "0" "9"; regexp.range "a" "f";
                     regexp.range "A" "F"]) h = true.
Proof.
  set (cls := [regexp.range "0" "9"; regexp.range "a" "f"; regexp.range "A" "F"]).
  set (X := regexp.OpRepeat 1 2 (regexp.OpRepeat 3 3 (regexp.OpCharClass cls))).
  assert (Hre : utils.hexRegex
                = regexp.OpConcat regexp.OpBeginText
                    (regexp.OpConcat (regexp.OpLiteral (rune_lit "#"))
                       (regexp.OpConcat X regexp.OpEndText)))
    by reflexivity.
  rewrite Hre. set (body := regexp.OpConcat (regexp.OpLiteral _) _).
  assert (Hbody : In (false, []) (regexp.run body (true, rs))
                  <-> exists h, rs = rune_lit "#" :: h
                                /\ (length h = 3%nat \/ length h = 6%nat)
                                /\ forallb (regexp.in_class cls) h = true).
  { unfold body. rewrite In_run_concat. split.
    - intros (m1 & Hm1 & Hin). cbn [regexp.run snd] in Hm1.
      destruct rs as [|r h]; [destruct Hm1|].
      destruct (r =? rune_lit "#") eqn:Hr; [|destruct Hm1].
      destruct Hm1 as [<-|[]]. apply Z.eqb_eq in Hr. subst r.
      exists h. split; [done|].
      apply In_run_concat in Hin as (m2 & Hm2 & Hend).
      cbn [regexp.run snd] in Hend.
      destruct (m2.2) eqn:E2; [|destruct Hend]. clear Hend.
      apply run_three_once_or_twice in Hm2
        as [(Hlen & Hall & ->)|(Hlen & Hall & ->)]; cbn in E2;
        assert (length (drop _ h) = 0%nat) as Hz by (by rewrite E2);
        rewrite length_drop in Hz; rewrite take_ge in Hall by lia;
        (split; [lia|done]).
    - intros (h & -> & Hlen & Hall).
      exists (false, h). split.
      { cbn [regexp.run snd]. rewrite Z.eqb_refl. by left. }
      apply In_run_concat. exists (false, []). split; [|by left].
      apply run_three_once_or_twice.
      destruct Hlen as [Hlen|Hlen]; [left|right];
        rewrite take_ge, drop_ge by lia; (split; [lia|done]). }
  split.
  - intros Hm. apply search_anchored_reads in Hm; [|done].
    destruct Hm as [Hm|Hm]; [by apply Hbody|].
    unfold body in Hm. apply In_run_concat in Hm as (m1 & Hm1 & Hin).
    apply In_run_concat in Hin as (m2 & Hm2 & Hend).
    destruct m1 as [b1 h1].
    apply run_three_once_or_twice in Hm2 as [(_ & _ & ->)|(_ & _ & ->)];
      cbn [regexp.run snd] in Hend;
      (destruct (drop _ h1);
       [destruct Hend as [E|[]]; discriminate E|destruct Hend]).
  - intros Hex.
    destruct rs as [|r rest].
    { destruct Hex as (h & ? & _). discriminate. }
    apply Hbody in Hex.
    cbn [regexp.search]. apply orb_true_iff. left.
    apply matches_at_true. exists (false, []).
    cbn [regexp.run fst map concat]. by rewrite app_nil_r.
Qed.

Lemma hex_byte_class (c : ascii) :
  regexp.in_class
    [regexp.range "0" "9"; regexp.range "a" "f"; regexp.range "A" "F"] (byteZ c)
  = hex_byte c.
Proof. destruct c as [[] [] [] [] [] [] [] []]; reflexivity. Qed.

Lemma hex_bytes_class (h : gostring) :
  forallb (regexp.in_class
             [regexp.range "0" "9"; regexp.range "a" "f"; regexp.range "A" "F"])
          (map byteZ h)
  = forallb hex_byte h.
Proof.
  induction h as [|c h IH]; [done|].
  cbn [map forallb]. by rewrite hex_byte_class, IH.
Qed.

Lemma hex_byte_plain (c : ascii) : hex_byte c = true -> plain_byte c.
Proof.
  destruct c as [[] [] [] [] [] [] [] []]; vm_compute; intros H;
    try discriminate H; split; reflexivity.
Qed.

(** What [hexRegex] accepts: a number sign and three or six hexadecimal
    digits. *)
Lemma MatchString_hexRegex (s : gostring) :
  regexp.MatchString utils.hexRegex s = true
  <-> exists h : gostring,
      s = "#"%char :: h
      /\ (length h = 3%nat \/ length h = 6%nat)
      /\ forallb hex_byte h = true.
Proof.
  split.
  - intros Hm.
    assert (Hascii : Forall (fun c => byteZ c < 0x80) s).
    { pose proof Hm as Hm'.
      apply (MatchString_anchored_bytes _ s) in Hm'; [|done|].
      - eapply Forall_impl; [exact Hm'|]. by intros c [? _].
      - intros r Hr. cbn in Hr. bool_hyps; rune_lits; lia. }
    unfold regexp.MatchString in Hm.
    rewrite (runes_ascii s Hascii), map_fst_ascii_piece in Hm.
    apply search_hexRegex in Hm as (h & Hs & Hlen & Hall).
    destruct s as [|c hb]; [discriminate|]. cbn [map] in Hs.
    injection Hs as Hc <-. apply (byteZ_inj c "#") in Hc. subst c.
    exists hb. rewrite length_map in Hlen. split; [done|]. split; [done|].
    by rewrite <- hex_bytes_class.
  - intros (h & -> & Hlen & Hall).
    assert (Hascii : Forall (fun c => byteZ c < 0x80) ("#"%char :: h)).
    { constructor; [done|]. apply forallb_Forall in Hall.
      eapply Forall_impl; [exact Hall|]. intros c Hc.
      by destruct (hex_byte_plain c Hc). }
    unfold regexp.MatchString.
    rewrite (runes_ascii _ Hascii), map_fst_ascii_piece.
    apply search_hexRegex. exists (map byteZ h).
    split; [done|]. rewrite length_map. split; [done|].
    by rewrite hex_bytes_class.
Qed.

(** * Further facts about decoding, trimming and extensions *)

(** A rune is decoded from four bytes at most. *)
Lemma DecodeRune_width_max (s : gostring) :
  ((utf8.DecodeRuneInString s).2 <= 4)%nat.
Proof.
  unfold utf8.DecodeRuneInString.
  destruct (length s <? 1)%nat; [cbn; lia|].
  destruct (utf8.first _); cbn; try lia.
  repeat case_match; cbn; lia.
Qed.

Lemma length_le_runes (s : gostring) :
  (length s <= 4 * utf8.RuneCountInString s)%nat.
Proof.
  unfold utf8.RuneCountInString.
  apply (runes_ind (fun s rs => (length s <= 4 * length rs)%nat)); [done|].
  intros s0 r n _ Hd _ IH. cbn [length]. rewrite length_drop in IH.
  pose proof (DecodeRune_width_max s0) as Hw. rewrite Hd in Hw. cbn in Hw. lia.
Qed.

Lemma drop_while_all {A} (f : A -> bool) (l : list A) :
  Forall (fun x => f x = true) l -> strings.drop_while f l = [].
Proof. induction 1 as [|x l Hx _ IH]; [done|]. cbn. by rewrite Hx. Qed.

Lemma bytes_of_nil (l : list (rune * gostring)) :
  Forall (fun x : rune * gostring => x.2 <> []) l ->
  utf8.bytes_of l = [] -> l = [].
Proof.
  destruct 1 as [|x l Hx _]; [done|]. rewrite bytes_of_cons.
  by destruct (x.2).
Qed.

(** Trimming leaves nothing exactly when every rune is white space. *)
Lemma TrimSpace_nil_iff (s : gostring) :
  strings.TrimSpace s = []
  <-> Forall (fun x => strings.space_rune x = true) (utf8.runes s).
Proof.
  unfold strings.TrimSpace, strings.trim_left. split.
  - intros E.
    destruct (drop_while_dropped strings.space_rune (utf8.runes s))
      as (k & Hk & Hall).
    set (L := strings.drop_while _ _) in *.
    destruct (trim_right_split strings.space_rune L) as (B & HB & HBsp).
    pose proof (runes_pieces_nonempty s) as Hne.
    rewrite Hk, Forall_app in Hne. destruct Hne as [_ Hne].
    rewrite HB, Forall_app in Hne. destruct Hne as [Hne _].
    apply (bytes_of_nil _ Hne) in E. rewrite E in HB. cbn in HB.
    destruct L as [|y L'] eqn:HL.
    + rewrite Hk, app_nil_r. exact Hall.
    + exfalso. pose proof (drop_while_head_stops strings.space_rune
                             (utf8.runes s) y) as Hy.
      fold L in Hy. rewrite HL in Hy. specialize (Hy eq_refl).
      rewrite <- HB in HBsp. inversion HBsp; subst. congruence.
  - intros Hall. rewrite (drop_while_all _ _ Hall). reflexivity.
Qed.

Lemma ext_scan_dot (rb rest acc : gostring) :
  forallb ext_body_byte rb = true ->
  filepath.ext_scan (rb ++ "."%char :: rest) acc = "."%char :: (reverse rb ++ acc).
Proof.
  revert acc. induction rb as [|c rb IH]; intros acc Hrb; [done|].
  cbn in Hrb. apply andb_true_iff in Hrb as [Hc Hrb].
  unfold ext_body_byte in Hc. apply andb_true_iff in Hc as [Hdot Hsep].
  apply negb_true_iff in Hdot, Hsep.
  cbn [app filepath.ext_scan]. rewrite Hsep, Hdot, IH by done.
  by rewrite reverse_cons, <- app_assoc.
Qed.

(** The extension of a path that ends in a dot followed by bytes other than
    dots and separators is that ending. *)
Lemma Ext_ending (p body : gostring) :
  forallb ext_body_byte body = true ->
  filepath.Ext (p ++ "."%char :: body) = "."%char :: body.
Proof.
  intros Hb. unfold filepath.Ext.
  rewrite reverse_app, reverse_cons, <- app_assoc. cbn [app].
  rewrite ext_scan_dot.
  - by rewrite reverse_involutive, app_nil_r.
  - apply forallb_Forall. apply Forall_reverse. by apply forallb_Forall.
Qed.

Lemma ext_scan_suffix (rpath acc : gostring) :
  exists q, reverse rpath ++ acc = q ++ filepath.ext_scan rpath acc.
Proof.
  revert acc. induction rpath as [|c rpath IH]; intros acc.
  - exists acc. by rewrite app_nil_r.
  - cbn [filepath.ext_scan]. rewrite reverse_cons, <- app_assoc. cbn [app].
    destruct (filepath.IsPathSeparator c).
    { eexists. by rewrite app_nil_r. }
    destruct (Ascii.eqb c "."); [by eexists|]. apply IH.
Qed.

(** The extension is an ending of the path. *)
Lemma Ext_suffix (path : gostring) :
  exists q, path = q ++ filepath.Ext path.
Proof.
  destruct (ext_scan_suffix (reverse path) []) as (q & Hq).
  rewrite reverse_involutive, app_nil_r in Hq. by exists q.
Qed.

(** Every blocked extension passes a test that the listed ones pass. *)
Lemma blockedExt_forall (P : gostring -> bool) (e : gostring) :
  forallb P (elements utils.blockedExt) = true ->
  e ∈ utils.blockedExt -> P e = true.
Proof.
  intros HP He. apply forallb_Forall in HP. rewrite Forall_forall in HP.
  apply HP. by apply elem_of_elements.
Qed.

Lemma lower_byte_ascii (c : ascii) :
  byteZ (strings.lower_byte c) < 0x80 -> byteZ c < 0x80.
Proof.
  destruct c as [[] [] [] [] [] [] [] []]; vm_compute; intros H;
    try discriminate H; reflexivity.
Qed.

(** * Further properties of the sanitizers, continued *)

(** X5.  A url that ends in a blocked extension, written in any letter case,
    is refused with [ErrorBadFileType], whatever comes before the extension
    and whatever type is declared. *)
Theorem ValidateFileType_blocked_ending (unicode_ToLower : rune -> rune)
        (fileType : option gostring) (p body : gostring) :
  forallb ext_body_byte body = true ->
  map strings.lower_byte ("."%char :: body) ∈ utils.blockedExt ->
  utils.ValidateFileType unicode_ToLower fileType (p ++ "."%char :: body)
  = (None, Some utils.ErrorBadFileType).
Proof.
  intros Hbody Hblocked. apply ValidateFileType_blocked.
  rewrite (Ext_ending p body Hbody), ToLower_ascii; [done|].
  pose proof (blockedExt_forall
                (forallb (fun c => byteZ c <? 0x80)) _ eq_refl Hblocked) as Ha.
  apply forallb_Forall in Ha. rewrite Forall_map in Ha.
  eapply Forall_impl; [exact Ha|]. intros c Hc. apply Z.ltb_lt in Hc.
  by apply lower_byte_ascii.
Qed.

Lemma ValidateFileType_blocked_ending_witness :
  utils.ValidateFileType ascii_ToLower (Some (str "image/png"))
    (str "http://x/photo.png.ExE")
  = (None, Some utils.ErrorBadFileType).
Proof.
  apply (ValidateFileType_blocked_ending ascii_ToLower (Some (str "image/png"))
           (str "http://x/photo.png") (str "ExE")); [reflexivity|].
  apply (bool_decide_unpack _). by vm_compute.
Defined.

(** X6.  [SanitizeText] never reports an error, and it returns an absent text
    exactly when the text is absent or every rune of it is white space. *)
Theorem SanitizeText_absent_iff_blank (UGCPolicy_Sanitize : gostring -> gostring)
        (text : option gostring) :
  (utils.SanitizeText UGCPolicy_Sanitize text).2 = None
  /\ ((utils.SanitizeText UGCPolicy_Sanitize text).1 = None
      <-> match text with
          | None => True
          | Some v => Forall (fun x => strings.space_rune x = true) (utf8.runes v)
          end).
Proof.
  destruct text as [v|]; [|done]. unfold utils.SanitizeText.
  rewrite <- TrimSpace_nil_iff.
  destruct (bool_decide (strings.TrimSpace v = [])) eqn:E.
  - apply bool_decide_eq_true in E. by split.
  - apply bool_decide_eq_false in E. split; [done|]. by split.
Qed.

(** X10.  [SanitizeHallname] folds no case: it returns the trimmed input when
    that has 3 to 32 bytes, all of the class [[a-zA-Z0-9_.\- ]], and fails
    with [ErrorInvalidHallName] in every other case. *)
Theorem SanitizeHallname_spec (s : gostring) :
  let t := strings.TrimSpace s in
  let ok := (3 <= length t <= 32)%nat /\ forallb hallname_byte t = true in
  (ok -> utils.SanitizeHallname s = (t, None))
  /\ (~ ok -> utils.SanitizeHallname s = ([], Some utils.ErrorInvalidHallName)).
Proof.
  intros t ok. unfold utils.SanitizeHallname. fold t.
  destruct (regexp.MatchString utils.hallNameRegex t) eqn:Hm.
  - apply MatchString_hallNameRegex in Hm. by split.
  - split; [|done]. intros Hok. apply MatchString_hallNameRegex in Hok.
    congruence.
Qed.

Lemma SanitizeHallname_spec_witness :
  utils.SanitizeHallname (str "  Main Hall-2 ") = (str "Main Hall-2", None)
  /\ utils.SanitizeHallname (str " ab ") = ([], Some utils.ErrorInvalidHallName).
Proof.
  split.
  - apply (proj1 (SanitizeHallname_spec (str "  Main Hall-2 "))).
    split; [vm_compute; lia|by vm_compute].
  - apply (proj2 (SanitizeHallname_spec (str " ab "))).
    intros [Hlen _]. vm_compute in Hlen. lia.
Defined.

(** X11.  [SanitizeColorFormat] accepts, as it is, a trimmed colour made of a
    number sign and three or six hexadecimal digits of either case, and fails
    with [ErrorInvalidBannerColor] on any other colour that is not blank. *)
Theorem SanitizeColorFormat_spec (v : gostring) :
  let t := strings.TrimSpace v in
  let ok := exists h : gostring,
      t = "#"%char :: h
      /\ (length h = 3%nat \/ length h = 6%nat)
      /\ forallb hex_byte h = true in
  (ok -> utils.SanitizeColorFormat (Some v) = (Some t, None))
  /\ (t <> [] -> ~ ok ->
      utils.SanitizeColorFormat (Some v) = (None, Some utils.ErrorInvalidBannerColor)).
Proof.
  intros t ok. unfold utils.SanitizeColorFormat. fold t. split.
  - intros Hok. pose proof Hok as (h & Ht & _).
    rewrite bool_decide_eq_false_2 by (by rewrite Ht).
    apply MatchString_hexRegex in Hok. by rewrite Hok.
  - intros Hne Hnot. rewrite bool_decide_eq_false_2 by done.
    destruct (regexp.MatchString utils.hexRegex t) eqn:Hm; [|done].
    apply MatchString_hexRegex in Hm. done.
Qed.

Lemma SanitizeColorFormat_spec_witness :
  utils.SanitizeColorFormat (Some (str " #a1B2c3 ")) = (Some (str "#a1B2c3"), None)
  /\ utils.SanitizeColorFormat (Some (str "#abcd"))
     = (None, Some utils.ErrorInvalidBannerColor).
Proof.
  split.
  - apply (proj1 (SanitizeColorFormat_spec (str " #a1B2c3 "))).
    exists (str "a1B2c3"). split; [by vm_compute|]. split; [by right|done].
  - apply (proj2 (SanitizeColorFormat_spec (str "#abcd"))); [by vm_compute|].
    intros (h & Ht & Hlen & _). vm_compute in Ht. injection Ht as <-.
    cbn in Hlen. lia.
Defined.

(** X12.  White space inside a password is no reason to refuse it: a
    password whose first and last runes are not white space is handed to the
    entropy estimator, which alone decides; [ErrorPasswordWhiteSpace] is
    reported exactly for white space at either end, and then before the
    estimator is asked. *)
Theorem SanitizePasswordPolicy_edges
        (passwordvalidator_Validate : gostring -> Z -> option gostring)
        (raw : gostring) :
  ((utils.SanitizePasswordPolicy passwordvalidator_Validate raw).2
   = Some utils.ErrorPasswordWhiteSpace
   <-> leading_space raw = true \/ trailing_space raw = true)
  /\ (leading_space raw = false -> trailing_space raw = false ->
      utils.SanitizePasswordPolicy passwordvalidator_Validate raw
      = match passwordvalidator_Validate raw utils.minEntropyBits with
        | Some _ => ([], Some utils.ErrorInvalidPassword)
        | None => (raw, None)
        end).
Proof.
  assert (Hin : leading_space raw = false -> trailing_space raw = false ->
                utils.SanitizePasswordPolicy passwordvalidator_Validate raw
                = match passwordvalidator_Validate raw utils.minEntropyBits with
                  | Some _ => ([], Some utils.ErrorInvalidPassword)
                  | None => (raw, None)
                  end).
  { intros Hl Ht. unfold utils.SanitizePasswordPolicy.
    rewrite (TrimSpace_fixed raw Hl Ht).
    by rewrite bool_decide_eq_false_2 by (intros H; by apply H). }
  split; [|exact Hin]. split.
  - intros Herr.
    destruct (leading_space raw) eqn:Hl; [by left|].
    destruct (trailing_space raw) eqn:Ht; [by right|].
    rewrite (Hin eq_refl eq_refl) in Herr.
    by destruct (passwordvalidator_Validate raw utils.minEntropyBits).
  - intros Hsp. unfold utils.SanitizePasswordPolicy.
    apply TrimSpace_shorter in Hsp.
    rewrite bool_decide_eq_true_2; [done|]. intros E. rewrite E in Hsp. lia.
Qed.

Lemma SanitizePasswordPolicy_edges_witness :
  utils.SanitizePasswordPolicy Validate_accepting (str "correct horse battery")
  = (str "correct horse battery", None).
Proof.
  apply (proj2 (SanitizePasswordPolicy_edges Validate_accepting
                  (str "correct horse battery"))); by vm_compute.
Defined.

(** X13.  An accepted display name has at least 3 and at most 128 bytes: it
    has 3 to 32 runes, and a rune takes one to four bytes. *)
Theorem SanitizeDisplayName_byte_bounds (NFKC : gostring -> gostring)
        (s t : gostring) :
  utils.SanitizeDisplayName NFKC s = (t, None) ->
  (3 <= length t <= 128)%nat.
Proof.
  intros Hok. apply SanitizeDisplayName_ok in Hok as (_ & _ & Hlen).
  pose proof (RuneCount_le_length t). pose proof (length_le_runes t). lia.
Qed.

Lemma SanitizeDisplayName_byte_bounds_witness :
  utils.SanitizeDisplayName NFKC_of_normalized ya32 = (ya32, None)
  /\ (3 <= length ya32 <= 128)%nat.
Proof.
  assert (H : utils.SanitizeDisplayName NFKC_of_normalized ya32 = (ya32, None))
    by (by vm_compute).
  split; [exact H|].
  exact (SanitizeDisplayName_byte_bounds NFKC_of_normalized _ _ H).
Defined.

(** X14.  Everything after the last dot counts as the extension: when a
    query or a fragment follows it (a question mark or a number sign in the
    extension), the url is never refused as a blocked file type, and without
    a declared type it is accepted. *)
Theorem ValidateFileType_query_not_blocked (unicode_ToLower : rune -> rune)
        (fileType : option gostring) (url : gostring) :
  Forall (fun c => byteZ c < 0x80) (filepath.Ext url) ->
  In "?"%char (filepath.Ext url) \/ In "#"%char (filepath.Ext url) ->
  (utils.ValidateFileType unicode_ToLower fileType url).2
  <> Some utils.ErrorBadFileType
  /\ utils.ValidateFileType unicode_ToLower None url
     = (Some (map strings.lower_byte (filepath.Ext url)), None).
Proof.
  intros Hascii Hq. unfold utils.ValidateFileType.
  rewrite (ToLower_ascii _ _ Hascii).
  set (ext := map strings.lower_byte (filepath.Ext url)).
  assert (Hext : ext ∉ utils.blockedExt).
  { intros Hb.
    pose proof (blockedExt_forall
                  (fun e => negb (existsb (fun c => Ascii.eqb c "?" || Ascii.eqb c "#") e))
                  _ eq_refl Hb) as Hp.
    apply negb_true_iff in Hp.
    assert (existsb (fun c => Ascii.eqb c "?" || Ascii.eqb c "#") ext = true);
      [|congruence].
    apply existsb_exists. unfold ext.
    destruct Hq as [Hq|Hq]; [exists "?"%char|exists "#"%char];
      (split; [|reflexivity]);
      by apply (in_map strings.lower_byte) in Hq. }
  rewrite bool_decide_eq_false_2 by done. split; [|done].
  destruct fileType as [v|]; [|done]. by destruct (negb _).
Qed.

Lemma ValidateFileType_query_not_blocked_witness :
  utils.ValidateFileType ascii_ToLower None (str "http://x/setup.exe?v=2")
  = (Some (str ".exe?v=2"), None).
Proof.
  refine (proj2 (ValidateFileType_query_not_blocked ascii_ToLower None
                   (str "http://x/setup.exe?v=2") _ _)).
  - vm_compute. repeat constructor.
  - left. vm_compute. tauto.
Defined.

(** X15.  [keepPlusDigits] works byte by byte although it reads runes: it
    distributes over concatenation, leaves only plus signs and digits, never
    lengthens its input and changes nothing when applied again. *)
Theorem keepPlusDigits_bytewise :
  (forall a b : gostring,
      utils.keepPlusDigits (a ++ b)
      = utils.keepPlusDigits a ++ utils.keepPlusDigits b)
  /\ (forall s : gostring,
         forallb plus_or_digit (utils.keepPlusDigits s) = true
         /\ (length (utils.keepPlusDigits s) <= length s)%nat
         /\ utils.keepPlusDigits (utils.keepPlusDigits s) = utils.keepPlusDigits s).
Proof.
  split.
  - intros a b. rewrite !keepPlusDigits_filter. apply List.filter_app.
  - intros s. rewrite !keepPlusDigits_filter.
    assert (Hall : forallb plus_or_digit (List.filter plus_or_digit s) = true).
    { apply forallb_forall. intros c Hc. by apply List.filter_In in Hc as [_ ?]. }
    split; [done|]. split; [apply List.filter_length_le|].
    apply forallb_Forall in Hall. clear -Hall.
    induction Hall as [|c l Hc _ IH]; [done|]. cbn. by rewrite Hc, IH.
Qed.

(** * Facts about trimming an ASCII string *)

Lemma map_reverse {A B} (f : A -> B) (l : list A) :
  map f (reverse l) = reverse (map f l).
Proof.
  induction l as [|x l IH]; [done|].
  cbn [map]. by rewrite !reverse_cons, map_app, IH.
Qed.

Lemma drop_while_map {A B} (g : A -> B) (f : B -> bool) (l : list A) :
  strings.drop_while f (map g l)
  = map g (strings.drop_while (fun x => f (g x)) l).
Proof.
  induction l as [|x l IH]; [done|]. cbn. by destruct (f (g x)).
Qed.

(** On an ASCII string [strings.TrimSpace] drops the white space bytes at
    both ends. *)
Lemma TrimSpace_ascii (s : gostring) :
  Forall (fun c => byteZ c < 0x80) s ->
  strings.TrimSpace s
  = reverse (strings.drop_while (fun c => unicode.IsSpace (byteZ c))
               (reverse (strings.drop_while
                           (fun c => unicode.IsSpace (byteZ c)) s))).
Proof.
  intros Hs. unfold strings.TrimSpace, strings.trim_left, strings.trim_right.
  rewrite (runes_ascii s Hs).
  rewrite (drop_while_map ascii_piece), <- map_reverse,
    (drop_while_map ascii_piece), <- map_reverse.
  apply bytes_of_ascii_pieces.
Qed.

Lemma drop_while_Forall {A} (P : A -> Prop) (f : A -> bool) (l : list A) :
  Forall P l -> Forall P (strings.drop_while f l).
Proof.
  intros H. destruct (drop_while_dropped f l) as (k & Hk & _).
  rewrite Hk in H. by apply Forall_app in H as [_ ?].
Qed.

Lemma TrimSpace_ascii_Forall (P : ascii -> Prop) (s : gostring) :
  Forall (fun c => byteZ c < 0x80) s -> Forall P s ->
  Forall P (strings.TrimSpace s).
Proof.
  intros Hs HP. rewrite (TrimSpace_ascii s Hs).
  apply Forall_reverse, drop_while_Forall, Forall_reverse.
  by apply drop_while_Forall.
Qed.

Lemma lower_byte_space (c : ascii) :
  unicode.IsSpace (byteZ (strings.lower_byte c)) = unicode.IsSpace (byteZ c).
Proof. destruct c as [[] [] [] [] [] [] [] []]; reflexivity. Qed.

Lemma lower_byte_keeps_ascii (c : ascii) :
  byteZ c < 0x80 -> byteZ (strings.lower_byte c) < 0x80.
Proof.
  destruct c as [[] [] [] [] [] [] [] []]; vm_compute; intros H;
    try discriminate H; reflexivity.
Qed.

(** Lower-casing and trimming an ASCII string commute. *)
Lemma TrimSpace_lower (s : gostring) :
  Forall (fun c => byteZ c < 0x80) s ->
  strings.TrimSpace (map strings.lower_byte s)
  = map strings.lower_byte (strings.TrimSpace s).
Proof.
  intros Hs.
  assert (Hl : Forall (fun c => byteZ c < 0x80) (map strings.lower_byte s)).
  { rewrite Forall_map. eapply Forall_impl; [exact Hs|].
    apply lower_byte_keeps_ascii. }
  rewrite (TrimSpace_ascii _ Hl), (TrimSpace_ascii _ Hs).
  assert (Hdw : forall l : gostring,
             strings.drop_while (fun c => unicode.IsSpace (byteZ c))
               (map strings.lower_byte l)
             = map strings.lower_byte
                 (strings.drop_while (fun c => unicode.IsSpace (byteZ c)) l)).
  { intros l. rewrite drop_while_map. f_equal.
    induction l as [|c l IH]; [done|]. cbn. by rewrite lower_byte_space, IH. }
  by rewrite Hdw, <- map_reverse, Hdw, <- map_reverse.
Qed.

(** The lower-cased, trimmed form of an ASCII input depends on the input up
    to letter case only. *)
Lemma ToLower_TrimSpace_ascii (f : rune -> rune) (s : gostring) :
  Forall (fun c => byteZ c < 0x80) s ->
  strings.ToLower f (strings.TrimSpace s)
  = strings.TrimSpace (map strings.lower_byte s).
Proof.
  intros Hs. rewrite ToLower_ascii by (by apply TrimSpace_ascii_Forall).
  by rewrite TrimSpace_lower.
Qed.

(** X16.  Usernames and emails are compared without regard to letter case:
    two ASCII inputs that differ only in the case of their letters get the
    same answer from [SanitizeUsername], and from [SanitizeEmail]. *)
Theorem Sanitize_case_insensitive (unicode_ToLower : rune -> rune)
        (s s' : gostring) :
  Forall (fun c => byteZ c < 0x80) s ->
  Forall (fun c => byteZ c < 0x80) s' ->
  map strings.lower_byte s = map strings.lower_byte s' ->
  utils.SanitizeUsername unicode_ToLower s = utils.SanitizeUsername unicode_ToLower s'
  /\ utils.SanitizeEmail unicode_ToLower s = utils.SanitizeEmail unicode_ToLower s'.
Proof.
  intros Hs Hs' Heq. unfold utils.SanitizeUsername, utils.SanitizeEmail.
  rewrite (ToLower_TrimSpace_ascii _ s Hs), (ToLower_TrimSpace_ascii _ s' Hs').
  by rewrite Heq.
Qed.

Lemma Sanitize_case_insensitive_witness :
  utils.SanitizeUsername ascii_ToLower (str " Alice_01 ")
  = utils.SanitizeUsername ascii_ToLower (str " aLICE_01 ")
  /\ utils.SanitizeEmail ascii_ToLower (str "Ann@Example.org")
     = utils.SanitizeEmail ascii_ToLower (str "ANN@EXAMPLE.ORG").
Proof.
  split.
  - refine (proj1 (Sanitize_case_insensitive ascii_ToLower
                     (str " Alice_01 ") (str " aLICE_01 ") _ _ _));
      [vm_compute; repeat constructor..|reflexivity].
  - refine (proj2 (Sanitize_case_insensitive ascii_ToLower
                     (str "Ann@Example.org") (str "ANN@EXAMPLE.ORG") _ _ _));
      [vm_compute; repeat constructor..|reflexivity].
Defined.

(** X17.  White space around the input is never significant: every function
    that trims its input gives, on the trimmed input, the answer it gives on
    the input itself. *)
Theorem Sanitizers_ignore_padding
        (unicode_ToLower : rune -> rune)
        (NFKC UGCPolicy_Sanitize : gostring -> gostring)
        (os_Stat : gostring -> os.error) (v : gostring) :
  let t := strings.TrimSpace v in
  utils.SanitizeUsername unicode_ToLower t = utils.SanitizeUsername unicode_ToLower v
  /\ utils.SanitizeHallname t = utils.SanitizeHallname v
  /\ utils.SanitizeDisplayName NFKC t = utils.SanitizeDisplayName NFKC v
  /\ utils.SanitizeEmail unicode_ToLower t = utils.SanitizeEmail unicode_ToLower v
  /\ utils.SanitizePhoneE164 (Some t) = utils.SanitizePhoneE164 (Some v)
  /\ utils.SanitizeColorFormat (Some t) = utils.SanitizeColorFormat (Some v)
  /\ utils.SanitizeText UGCPolicy_Sanitize (Some t)
     = utils.SanitizeText UGCPolicy_Sanitize (Some v)
  /\ utils.SanitizeMessageContent NFKC UGCPolicy_Sanitize (Some t)
     = utils.SanitizeMessageContent NFKC UGCPolicy_Sanitize (Some v)
  /\ utils.ValidateFileName os_Stat t = utils.ValidateFileName os_Stat v.
Proof.
  intros t. subst t.
  unfold utils.SanitizeUsername, utils.SanitizeHallname,
    utils.SanitizeDisplayName, utils.SanitizeEmail, utils.SanitizePhoneE164,
    utils.SanitizeColorFormat, utils.SanitizeText,
    utils.SanitizeMessageContent, utils.ValidateFileName.
  cbn [utils.bind utils.deref].
  rewrite !TrimSpace_idempotent. repeat split; reflexivity.
Qed.

(** * The cross-check of [ValidateFileType] *)

(** An extension, when there is one, begins with its dot. *)
Lemma ext_scan_head (rpath acc : gostring) :
  filepath.ext_scan rpath acc = []
  \/ exists body, filepath.ext_scan rpath acc = "."%char :: body.
Proof.
  revert acc. induction rpath as [|c rest IH]; intros acc; cbn; [by left|].
  destruct (filepath.IsPathSeparator c); [by left|].
  destruct (Ascii.eqb c ".") eqn:E; [|apply IH].
  apply Ascii.eqb_eq in E. subst c. right. by eexists.
Qed.

Lemma Ext_head (path : gostring) :
  filepath.Ext path <> [] -> exists body, filepath.Ext path = "."%char :: body.
Proof.
  intros Hne. unfold filepath.Ext in *.
  by destruct (ext_scan_head (reverse path) []) as [E|E].
Qed.

(** A string that contains another one holds its first byte. *)
Lemma Contains_head (s sub : gostring) (c : ascii) :
  strings.Contains s (c :: sub) = true -> In c s.
Proof.
  induction s as [|d s IH]; cbn; [done|].
  intros H. apply orb_true_iff in H as [H|H]; [|right; by apply IH].
  apply andb_true_iff in H as [H _]. apply Ascii.eqb_eq in H. by left.
Qed.

Lemma byteZ_dot (c : ascii) : byteZ c = rune_lit "." -> c = "."%char.
Proof.
  destruct c as [[] [] [] [] [] [] [] []]; vm_compute; intros H;
    try discriminate H; reflexivity.
Qed.

Lemma lower_byte_dot (c : ascii) : strings.lower_byte c = "."%char -> c = "."%char.
Proof.
  destruct c as [[] [] [] [] [] [] [] []]; vm_compute; intros H;
    try discriminate H; reflexivity.
Qed.

(** The dot is decoded from a dot byte only. *)
Lemma runes_dot (s : gostring) :
  forall x, In x (utf8.runes s) -> x.1 = rune_lit "." -> In "."%char s.
Proof.
  apply (runes_ind (fun s rs => forall x, In x rs -> x.1 = rune_lit "." ->
                                          In "."%char s)); [by intros x []|].
  intros s0 r n Hne Hdec Hn IH x [<-|Hx] Hr.
  - cbn [fst] in Hr. destruct s0 as [|c t]; [done|].
    destruct (DecodeRune_class c t) as [[_ Hd]|(_ & Hhigh & _)].
    + rewrite Hd in Hdec. injection Hdec as <- <-.
      left. by apply byteZ_dot.
    + rewrite Hdec in Hhigh. cbn [fst] in Hhigh. subst r.
      vm_compute in Hhigh. by exfalso; apply Hhigh.
  - rewrite <- (take_drop n s0). apply in_or_app. right. by apply (IH x).
Qed.

(** Lower-casing brings no dot into a string that has none, as long as the
    case table yields the dot for the dot only. *)
Lemma ToLower_no_dot (f : rune -> rune) (v : gostring) :
  (forall r, f r = rune_lit "." -> r = rune_lit ".") ->
  ~ In "."%char v -> ~ In "."%char (strings.ToLower f v).
Proof.
  intros Hf Hv. unfold strings.ToLower.
  destruct (forallb _ v).
  - destruct (negb _); [done|]. intros Hin.
    apply in_map_iff in Hin as (c & Hc & Hin).
    apply lower_byte_dot in Hc. by subst c.
  - rewrite Map_concat. intros Hin.
    apply in_concat in Hin as (bs & Hbs & Hin).
    apply in_map_iff in Hbs as (x & <- & Hx).
    destruct (0 <=? f x.1); [|by destruct Hin].
    apply EncodeRune_ascii_byte in Hin; [|by vm_compute].
    apply Hv, (runes_dot v x Hx), Hf. by rewrite <- Hin.
Qed.

(** Lower-casing keeps the leading dot of an extension, as long as the case
    table maps the dot to itself. *)
Lemma ToLower_dot_head (f : rune -> rune) (body : gostring) :
  f (rune_lit ".") = rune_lit "." ->
  exists low, strings.ToLower f ("."%char :: body) = "."%char :: low.
Proof.
  intros Hf. unfold strings.ToLower.
  destruct (forallb _ _).
  - destruct (negb _); [by eexists|]. cbn [map].
    change (strings.lower_byte ".") with "."%char. by eexists.
  - rewrite Map_concat, (runes_cons_ascii "." body) by (by vm_compute).
    cbn [map concat]. unfold ascii_piece. cbn [fst].
    change (byteZ ".") with (rune_lit "."). rewrite Hf.
    change (0 <=? rune_lit ".") with true. cbn iota.
    change (utf8.EncodeRune (rune_lit ".")) with ["."%char].
    by eexists.
Qed.

(** ** C2: [ValidateFileType] with a declared type *)

(** C2.  The extension the url is cross-checked with keeps its leading dot:
    whenever the url has an extension, a declared type without a dot never
    contains it, and [ValidateFileType] returns nothing but an error,
    [ErrorBadFileType] for a blocked extension and [ErrorFileUnmatch] for any
    other one, also when the declared type names the very extension of the
    url.  This holds for every case table that yields the dot for the dot and
    for nothing else, as [unicode.ToLower] does. *)
Theorem ValidateFileType_dotless_type_rejected
        (unicode_ToLower : rune -> rune) (v url : gostring) :
  (forall r, unicode_ToLower r = rune_lit "." <-> r = rune_lit ".") ->
  ~ In "."%char v ->
  filepath.Ext url <> [] ->
  utils.ValidateFileType unicode_ToLower (Some v) url
  = (None,
     Some (if bool_decide (strings.ToLower unicode_ToLower (filepath.Ext url)
                           ∈ utils.blockedExt)
           then utils.ErrorBadFileType else utils.ErrorFileUnmatch)).
Proof.
  intros Hf Hv Hext. unfold utils.ValidateFileType.
  destruct (bool_decide _); [done|].
  destruct (Ext_head url Hext) as [body ->].
  destruct (ToLower_dot_head unicode_ToLower body) as [low ->];
    [by apply Hf|].
  destruct (strings.Contains _ _) eqn:HC; [|done].
  apply Contains_head in HC.
  by apply (ToLower_no_dot unicode_ToLower v (fun r => proj1 (Hf r)) Hv) in HC.
Qed.

Lemma ascii_ToLower_dot (r : rune) :
  ascii_ToLower r = rune_lit "." <-> r = rune_lit ".".
Proof.
  unfold ascii_ToLower. split.
  - destruct (_ && _) eqn:E; [|done]. bool_hyps. rune_lits.
    vm_compute rune_lit. lia.
  - intros ->. reflexivity.
Qed.

Lemma no_dot_dec (v : gostring) :
  forallb (fun c => negb (Ascii.eqb c ".")) v = true -> ~ In "."%char v.
Proof.
  induction v as [|c v IH]; cbn; [by intros _ []|].
  intros H [E|E].
  - subst c. discriminate H.
  - destruct (Ascii.eqb c "."); [discriminate H|]. by apply IH.
Qed.

(** C2, at the failing input.  The declared type "image/jpeg" and the url
    "http://x/file.jpeg" both name jpeg, and the call fails with
    [ErrorFileUnmatch]; so do "image/png" and even "png" with a url that
    ends in ".png". *)
Lemma ValidateFileType_dotless_type_rejected_witness :
  filepath.Ext (str "http://x/file.jpeg") = str ".jpeg"
  /\ utils.ValidateFileType ascii_ToLower (Some (str "image/jpeg"))
       (str "http://x/file.jpeg")
     = (None, Some utils.ErrorFileUnmatch)
  /\ utils.ValidateFileType ascii_ToLower (Some (str "image/png"))
       (str "http://x/file.png")
     = (None, Some utils.ErrorFileUnmatch)
  /\ utils.ValidateFileType ascii_ToLower (Some (str "png"))
       (str "http://x/file.png")
     = (None, Some utils.ErrorFileUnmatch).
Proof.
  split; [reflexivity|].
  split; [|split].
  - refine (eq_trans
              (ValidateFileType_dotless_type_rejected ascii_ToLower
                 (str "image/jpeg") (str "http://x/file.jpeg")
                 ascii_ToLower_dot (no_dot_dec (str "image/jpeg") eq_refl) _) _);
      [by vm_compute|by vm_compute].
  - refine (eq_trans
              (ValidateFileType_dotless_type_rejected ascii_ToLower
                 (str "image/png") (str "http://x/file.png")
                 ascii_ToLower_dot (no_dot_dec (str "image/png") eq_refl) _) _);
      [by vm_compute|by vm_compute].
  - refine (eq_trans
              (ValidateFileType_dotless_type_rejected ascii_ToLower
                 (str "png") (str "http://x/file.png")
                 ascii_ToLower_dot (no_dot_dec (str "png") eq_refl) _) _);
      [by vm_compute|by vm_compute].
Defined.
